(** * Dog Shorts Factory: the request route and the dashboard's batch submitter

    A shallow embedding of
      - [src/app/api/pipeline/route.ts]: [requestSchema] and the [POST] handler;
      - [src/app/page.tsx]: [handleSubmit], the batch loop of the dashboard;
    together with a model of the orchestration pipeline ([@/lib/pipeline]),
    which the two files above call but which is described only by the
    specification.

    Part I holds the definitions, Part II the properties of the
    specification, Part III further properties of the two files, and with
    them what the schema defaults and coerces and what becomes of the tags. *)

From Stdlib Require Import QArith Qminmax Qround ZArith List String Ascii Bool Lia.
From Stdlib Require Import DecimalString DecimalNat.
From Stdlib Require Finite.
Import ListNotations.

Set Implicit Arguments.
#[local] Set Warnings "-register-all".
Local Open Scope Q_scope.
Local Open Scope list_scope.

(* ===================================================================== *)
(** * Part I: the embedding                                                *)
(* ===================================================================== *)

(** ** The JavaScript values and built-ins the two files use *)

Module JS.

(** A JavaScript [number].  The finite values are modelled by rationals: the
    code below only compares numbers ([Math.min], [Math.max], [<], zod's
    [min]/[max] checks) and never computes with them, and comparison of
    finite doubles is comparison of the rationals they denote.  The two
    infinities and NaN are kept apart; the sign of zero is not modelled. *)
Inductive number : Type :=
| Num (q : Q)
| PosInf
| NegInf
| NaN.

Definition Qltb (x y : Q) : bool := negb (Qle_bool y x).

(** [a < b] on numbers: false as soon as one side is NaN. *)
Definition ltb (a b : number) : bool :=
  match a, b with
  | NaN, _ | _, NaN => false
  | Num x, Num y => Qltb x y
  | Num _, PosInf => true
  | Num _, NegInf => false
  | PosInf, _ => false
  | NegInf, NegInf => false
  | NegInf, _ => true
  end.

(** [a <= b] and [a >= b] on numbers. *)
Definition leb (a b : number) : bool :=
  match a, b with
  | NaN, _ | _, NaN => false
  | Num x, Num y => Qle_bool x y
  | Num _, PosInf => true
  | Num _, NegInf => false
  | PosInf, PosInf => true
  | PosInf, _ => false
  | NegInf, _ => true
  end.

Definition isNaN (a : number) : bool :=
  match a with NaN => true | _ => false end.

(** [Math.max(a, b)] and [Math.min(a, b)]: NaN when an argument is NaN. *)
Definition Math_max (a b : number) : number :=
  if isNaN a || isNaN b then NaN else if ltb a b then b else a.

Definition Math_min (a b : number) : number :=
  if isNaN a || isNaN b then NaN else if ltb b a then b else a.

Definition of_nat (n : nat) : number := Num (inject_Z (Z.of_nat n)).
Definition of_Z (z : Z) : number := Num (inject_Z z).

(** A JavaScript string is modelled by a [string] whose characters stand for
    UTF-16 code units below 256, so that [String.length] is [.length]. *)

(** White space and line terminators below 256: TAB, LF, VT, FF, CR, SP and
    NBSP.  It is the set [String.prototype.trim] strips and the set the
    regular expression class [\s] matches. *)
Definition isWhiteSpace (c : ascii) : bool :=
  let n := nat_of_ascii c in
  ((9 <=? n) && (n <=? 13) || (n =? 32) || (n =? 160))%nat.

Fixpoint trimStart (s : string) : string :=
  match s with
  | EmptyString => EmptyString
  | String c s' => if isWhiteSpace c then trimStart s' else s
  end.

Fixpoint trimEnd (s : string) : string :=
  match s with
  | EmptyString => EmptyString
  | String c s' =>
      match trimEnd s' with
      | EmptyString => if isWhiteSpace c then EmptyString else String c EmptyString
      | r => String c r
      end
  end.

(** [s.trim()] *)
Definition trim (s : string) : string := trimEnd (trimStart s).

(** [Boolean(s)] for a string: the empty string is the only falsy one. *)
Definition truthy (s : string) : bool :=
  match s with EmptyString => false | _ => true end.

(** [s || undefined] *)
Definition orUndefined (s : string) : option string :=
  if truthy s then Some s else None.

(** [x ?? d] *)
Definition nullish {A : Type} (x : option A) (d : A) : A :=
  match x with Some v => v | None => d end.

(** [String(n)] for a natural number, as template literals print it. *)
Definition String_of_nat (n : nat) : string :=
  NilEmpty.string_of_uint (Nat.to_uint n).

(** [Number(n)] on a value that is a number already. *)
Definition Number (n : number) : number := n.

(** [s.split(/[,\s]+/)]: the pieces between the maximal runs of commas and
    white space.  A run at the start or at the end leaves an empty piece
    there, and the empty string splits into one empty piece.  [inRun] tells
    that the character before was a separator. *)
Definition isSeparator (c : ascii) : bool :=
  Ascii.eqb c ","%char || isWhiteSpace c.

Fixpoint splitFrom (inRun : bool) (s : string) : list string :=
  match s with
  | EmptyString => [EmptyString]
  | String c s' =>
      if isSeparator c then
        if inRun then splitFrom true s' else EmptyString :: splitFrom true s'
      else
        match splitFrom false s' with
        | piece :: pieces => String c piece :: pieces
        | [] => [String c EmptyString]
        end
  end.

Definition split (s : string) : list string := splitFrom false s.

(** [s.replace(/^#/, "")]: one leading '#' is removed, if there is one. *)
Definition stripHash (s : string) : string :=
  match s with
  | String c s' => if Ascii.eqb c "#"%char then s' else s
  | EmptyString => EmptyString
  end.

(** "min(max(d, lo), hi)" as the specification writes it: the value brought
    into [[lo, hi]].  It is stated on the order of the numbers, apart from
    [Math.min] and [Math.max]; NaN has no place in that order. *)
Definition clampTo (lo hi : Q) (d : number) : number :=
  match d with
  | Num q => Num (Qmin (Qmax q lo) hi)
  | PosInf => Num hi
  | NegInf => Num lo
  | NaN => NaN
  end.

(** [d] is a finite number of [[lo, hi]]. *)
Definition within (lo hi : Q) (d : number) : Prop :=
  exists q, d = Num q /\ lo <= q /\ q <= hi.

End JS.

(** ** [route.ts]: the request schema and the POST handler *)

Module Route.
Import JS.

(** What [request.json()] yields: a JSON value.  An object is the list of its
    own properties, each key once; [get] reads a property and [None] stands
    for [undefined]. *)
Inductive json : Type :=
| JNull
| JBool (b : bool)
| JNum (n : number)
| JStr (s : string)
| JArr (l : list json)
| JObj (o : list (string * json)).

Fixpoint get (key : string) (o : list (string * json)) : option json :=
  match o with
  | [] => None
  | (k, v) :: rest => if String.eqb k key then Some v else get key rest
  end.

(** The values the schema's enums range over. *)
Inductive AspectRatio : Type := Ratio_9_16 | Ratio_16_9 | Ratio_1_1.
Inductive Visibility : Type := Public | Private | Unlisted.

(** [parsed.data as ContentFactoryRequest]: the schema's output. *)
Record ContentFactoryRequest : Type := {
  prompt : string;
  aspectRatio : AspectRatio;
  durationSeconds : number;
  negativePrompt : option string;
  stylePreset : option string;
  audioPrompt : option string;
  title : string;
  description : string;
  tags : option (list string);
  publishAt : option string;
  visibility : option Visibility;
  uploadToYoutube : option bool;
  keepLocalFile : option bool
}.

(** zod's issues, by code; [ZodIssue] carries the property the issue is
    reported under ([error.flatten()] groups them by that name). *)
Inductive ZodIssueCode : Type :=
| invalid_type
| too_small
| too_big
| invalid_enum_value.

Record ZodIssue : Type := { path : string; code : ZodIssueCode }.

(** The outcome of parsing: every issue found, or the parsed value. *)
Definition parsed (I A : Type) : Type := (list I + A)%type.

(** A zod schema, as a function of the input ([None] is [undefined]). *)
Definition schema (A : Type) : Type := option json -> parsed ZodIssueCode A.

(** Issues accumulate across the properties of an object: zod parses every
    property and reports all failures together. *)
Definition pure {I A : Type} (a : A) : parsed I A := inr a.

Definition ap {I A B : Type} (f : parsed I (A -> B)) (x : parsed I A) : parsed I B :=
  match f, x with
  | inr g, inr a => inr (g a)
  | inr _, inl ix => inl ix
  | inl i, inr _ => inl i
  | inl i, inl ix => inl (i ++ ix)
  end.

Notation "f <*> x" := (ap f x) (at level 61, left associativity).

Section Schema.

(** The two built-in conversions of the language that coercion goes through:
    [Number(s)] on a string and [String(n)] on a number.  They round to and
    print binary floating point, which is not modelled; the schema is
    embedded over any such pair. *)
Variable StringToNumber : string -> number.
Variable NumberToString : number -> string.

(** [String(v)].  An array prints as its elements joined by commas, [null]
    elements as the empty string. *)
Fixpoint toString (v : json) : string :=
  match v with
  | JNull => "null"
  | JBool true => "true"
  | JBool false => "false"
  | JNum n => NumberToString n
  | JStr s => s
  | JArr l =>
      (fix join (l : list json) : string :=
         match l with
         | [] => ""
         | x :: rest =>
             let e := match x with JNull => "" | _ => toString x end in
             match rest with
             | [] => e
             | _ :: _ => e ++ "," ++ join rest
             end
         end) l
  | JObj _ => "[object Object]"
  end%string.

(** [Number(x)], zod's coercion for [z.coerce.number()]. *)
Definition ToNumber (x : option json) : number :=
  match x with
  | None => NaN
  | Some JNull => Num 0
  | Some (JBool true) => Num 1
  | Some (JBool false) => Num 0
  | Some (JNum n) => n
  | Some (JStr s) => StringToNumber s
  | Some (JArr l) => StringToNumber (toString (JArr l))
  | Some (JObj o) => StringToNumber (toString (JObj o))
  end.

(** [z.string().min(n)] *)
Definition z_string_min (n : nat) : schema string :=
  fun x =>
    match x with
    | Some (JStr s) => if (n <=? String.length s)%nat then inr s else inl [too_small]
    | _ => inl [invalid_type]
    end.

(** [z.string()] *)
Definition z_string : schema string := z_string_min 0.

(** [z.boolean()] *)
Definition z_boolean : schema bool :=
  fun x => match x with Some (JBool b) => inr b | _ => inl [invalid_type] end.

(** [z.enum([...])], the options paired with the values they parse to. *)
Definition z_enum {A : Type} (options : list (string * A)) : schema A :=
  fun x =>
    match x with
    | Some (JStr s) =>
        match find (fun o => String.eqb (fst o) s) options with
        | Some o => inr (snd o)
        | None => inl [invalid_enum_value]
        end
    | _ => inl [invalid_type]
    end.

(** [z.coerce.number().min(lo).max(hi)]: the input goes through [Number]; NaN
    is not a number for zod; both bounds are inclusive and both are checked. *)
Definition z_coerce_number_min_max (lo hi : Q) : schema number :=
  fun x =>
    let n := ToNumber x in
    if isNaN n then inl [invalid_type]
    else
      match (if leb (Num lo) n then [] else [too_small])
              ++ (if leb n (Num hi) then [] else [too_big]) with
      | [] => inr n
      | issues => inl issues
      end.

(** [z.array(item)] *)
Fixpoint parse_items {A : Type} (item : schema A) (l : list json) : parsed ZodIssueCode (list A) :=
  match l with
  | [] => inr []
  | v :: rest => pure cons <*> item (Some v) <*> parse_items item rest
  end.

Definition z_array {A : Type} (item : schema A) : schema (list A) :=
  fun x => match x with Some (JArr l) => parse_items item l | _ => inl [invalid_type] end.

(** [.optional()]: [undefined] is accepted and stays [undefined]. *)
Definition optional {A : Type} (s : schema A) : schema (option A) :=
  fun x =>
    match x with
    | None => inr None
    | Some _ => match s x with inr a => inr (Some a) | inl i => inl i end
    end.

(** [.default(d)]: [undefined] is replaced by [d] before the inner schema runs. *)
Definition default {A : Type} (s : schema A) (d : json) : schema A :=
  fun x => match x with None => s (Some d) | Some _ => s x end.

(** One property of [z.object({...})]: its issues are reported under its name. *)
Definition prop {A : Type} (key : string) (s : schema A) (o : list (string * json))
  : parsed ZodIssue A :=
  match s (get key o) with
  | inr a => inr a
  | inl codes => inl (map (fun c => {| path := key; code := c |}) codes)
  end.

Definition aspectRatios : list (string * AspectRatio) :=
  [("9:16", Ratio_9_16); ("16:9", Ratio_16_9); ("1:1", Ratio_1_1)]%string.

Definition visibilities : list (string * Visibility) :=
  [("public", Public); ("private", Private); ("unlisted", Unlisted)]%string.

(** [requestSchema.safeParse(payload)].  Properties the schema does not name
    are dropped. *)
Definition requestSchema (payload : json) : parsed ZodIssue ContentFactoryRequest :=
  match payload with
  | JObj o =>
      pure Build_ContentFactoryRequest
        <*> prop "prompt" (z_string_min 5) o
        <*> prop "aspectRatio" (default (z_enum aspectRatios) (JStr "9:16")) o
        <*> prop "durationSeconds"
              (default (z_coerce_number_min_max 3 120) (JNum (Num 15))) o
        <*> prop "negativePrompt" (optional z_string) o
        <*> prop "stylePreset" (optional z_string) o
        <*> prop "audioPrompt" (optional z_string) o
        <*> prop "title" (z_string_min 3) o
        <*> prop "description" (z_string_min 10) o
        <*> prop "tags" (optional (z_array (z_string_min 1))) o
        <*> prop "publishAt" (optional z_string) o
        <*> prop "visibility" (optional (z_enum visibilities)) o
        <*> prop "uploadToYoutube" (optional z_boolean) o
        <*> prop "keepLocalFile" (optional z_boolean) o
  | _ => inl [{| path := ""; code := invalid_type |}]
  end.

(** The constraints of the schema read as statements about a payload,
    property by property. *)
Definition isText (v : json) : Prop := exists s, v = JStr s.

Definition textOfAtLeast (n : nat) (v : json) : Prop :=
  exists s, v = JStr s /\ (n <= String.length s)%nat.

Definition oneOf (names : list string) (v : json) : Prop :=
  exists s, v = JStr s /\ In s names.

Definition isFlag (v : json) : Prop := exists b, v = JBool b.

Definition isTagList (v : json) : Prop :=
  exists l, v = JArr l /\ Forall (textOfAtLeast 1) l.

Definition numberWithin (lo hi : Q) (v : json) : Prop :=
  within lo hi (ToNumber (Some v)).

Definition absentOr (P : json -> Prop) (x : option json) : Prop :=
  match x with None => True | Some v => P v end.

Definition present (P : json -> Prop) (x : option json) : Prop :=
  match x with None => False | Some v => P v end.

(** A number outside [[lo, hi]]; the infinities and NaN are outside. *)
Definition Outside (lo hi : Q) (n : number) : Prop :=
  match n with Num q => q < lo \/ hi < q | PosInf | NegInf | NaN => True end.

(** Every property but [prompt] satisfies its constraint. *)
Definition RemainingFieldsValid (o : list (string * json)) : Prop :=
  absentOr (oneOf ["9:16"; "16:9"; "1:1"]%string) (get "aspectRatio" o) /\
  absentOr (numberWithin 3 120) (get "durationSeconds" o) /\
  absentOr isText (get "negativePrompt" o) /\
  absentOr isText (get "stylePreset" o) /\
  absentOr isText (get "audioPrompt" o) /\
  present (textOfAtLeast 3) (get "title" o) /\
  present (textOfAtLeast 10) (get "description" o) /\
  absentOr isTagList (get "tags" o) /\
  absentOr isText (get "publishAt" o) /\
  absentOr (oneOf ["public"; "private"; "unlisted"]%string) (get "visibility" o) /\
  absentOr isFlag (get "uploadToYoutube" o) /\
  absentOr isFlag (get "keepLocalFile" o).

(** The handler's responses.  [details] is the message of the JSON error
    (status 400) or the flattened zod issues (status 422). *)
Inductive Details : Type :=
| ErrorMessage (message : string)
| Flattened (issues : list ZodIssue).

Record Body (R : Type) : Type := {
  ok : bool;
  error : option string;
  details : option Details;
  result : option R
}.

Record Response (R : Type) : Type := {
  status : nat;
  body : Body R
}.

(** [@/lib/pipeline] is not part of the sources at hand: the handler is
    embedded over any [runContentFactory], which either resolves to a result
    or rejects with an error (kept as the message the handler reads). *)
Variable PipelineResult : Type.
Variable runContentFactory : ContentFactoryRequest -> PipelineResult + string.

(** What one call of [POST] does: the response it returns and the inputs it
    invoked [runContentFactory] on, in order. *)
Record Handled : Type := {
  response : Response PipelineResult;
  invoked : list ContentFactoryRequest
}.

(** [POST(request)].  The argument is the outcome of [await request.json()]:
    the payload, or the message of the error it threw. *)
Definition POST (request : string + json) : Handled :=
  match request with
  | inl message =>
      {| response :=
           {| status := 400;
              body := {| ok := false;
                         error := Some "Invalid JSON payload."%string;
                         details := Some (ErrorMessage message);
                         result := None |} |};
         invoked := [] |}
  | inr payload =>
      match requestSchema payload with
      | inl issues =>
          {| response :=
               {| status := 422;
                  body := {| ok := false;
                             error := Some "Validation failed."%string;
                             details := Some (Flattened issues);
                             result := None |} |};
             invoked := [] |}
      | inr input =>
          match runContentFactory input with
          | inl r =>
              {| response :=
                   {| status := 200;
                      body := {| ok := true;
                                 error := None;
                                 details := None;
                                 result := Some r |} |};
                 invoked := [input] |}
          | inr message =>
              {| response :=
                   {| status := 500;
                      body := {| ok := false;
                                 error := Some message;
                                 details := None;
                                 result := None |} |};
                 invoked := [input] |}
          end
      end
  end.

End Schema.

End Route.

(** ** [page.tsx]: the dashboard's [handleSubmit] *)

Module Page.
Import JS.

Definition DEFAULT_PROMPT : string :=
  "An energetic golden retriever puppy sprinting through a sunlit dog park, bounding over obstacles and chasing a bright red frisbee in cinematic slow motion.".

(** The component's state, as the closure of one [handleSubmit] call sees it. *)
Record State : Type := {
  isSubmitting : bool;
  uploadToYoutube : bool;
  keepLocalFile : bool;
  visibility : string;
  aspectRatio : string;
  durationSeconds : number;
  batchCount : number
}.

(** [new FormData(event.currentTarget)]: [get name] per field, [None] for
    [null] (no such field). *)
Record FormData : Type := {
  get_prompt : option string;
  get_title : option string;
  get_description : option string;
  get_hashtags : option string;
  get_stylePreset : option string;
  get_negativePrompt : option string;
  get_publishAt : option string
}.

(** The object literal [payload] posted to [/api/pipeline]. *)
Record Payload : Type := {
  prompt : string;
  p_aspectRatio : string;
  p_durationSeconds : number;
  negativePrompt : option string;
  stylePreset : option string;
  title : string;
  description : string;
  tags : list string;
  p_visibility : string;
  publishAt : option string;
  p_uploadToYoutube : bool;
  p_keepLocalFile : bool
}.

(** The activity log.  Entries are kept by what they say; their random id
    and their timestamp are left out. *)
Inductive Label : Type :=
| Batch (run : nat) (total : number)
| Run.

Inductive Level : Type := info | success | error.

Inductive Message : Type :=
| Dispatching (label : Label)
| PipelineFailed (label : Label) (errorMessage : option string) (status : nat)
| GenerationCompleted (label : Label) (jobId : string)
| MockMode
| Uploaded (label : Label) (visibility videoId : string)
| UploadSkipped (label : Label) (reason : option string)
| Caught (message : option string).

Record LogEntry : Type := { level : Level; message : Message }.

(** What the server's answer to one request looks like from the handler:
    [await fetch] rejects; [await response.json()] rejects; the answer is a
    failure ([!response.ok || !data.ok]); the answer is a success whose
    [data.result] cannot be read (reading it throws); or it is a success.
    Of [data.result.youtube] the handler reads whether its status is
    "uploaded", "skipped" or something else. *)
Inductive Youtube : Type :=
| YoutubeUploaded (visibility videoId : string)
| YoutubeSkipped (reason : option string)
| YoutubeOther (reason : option string).

Record ResultView : Type := {
  jobId : string;
  mock : bool;
  youtube : option Youtube
}.

Inductive Reply : Type :=
| Rejects (message : option string)
| Unreadable (message : option string)
| Failure (status : nat) (errorMessage : option string)
| Malformed (message : option string)
| Success (r : ResultView).

(** What [handleSubmit] does, in order.  A request is in flight from
    [Dispatched] until [Consumed], [Rejected] or [BodyFailed]. *)
Inductive Event : Type :=
| ResetLogs
| SetIsSubmitting (b : bool)
| AddLog (entry : LogEntry)
| Dispatched (run : nat) (payload : Payload)
| Received (run : nat)
| Consumed (run : nat)
| Rejected (run : nat)
| BodyFailed (run : nat).

(** Effects: the events so far, and how the computation ended.  [Threw] is a
    JavaScript exception with the message of its [Error] ([None] when the
    thrown value is not an [Error]); [OutOfFuel] is the model's own, for a
    loop cut short. *)
Inductive Outcome (A : Type) : Type :=
| Done (a : A)
| Threw (message : option string)
| OutOfFuel.

Arguments Threw {A} message.
Arguments OutOfFuel {A}.

Definition Eff (A : Type) : Type := (list Event * Outcome A)%type.

Definition ret {A : Type} (a : A) : Eff A := ([], Done a).

Definition bind {A B : Type} (m : Eff A) (k : A -> Eff B) : Eff B :=
  match m with
  | (t, Done a) => let (t', r) := k a in (t ++ t', r)
  | (t, Threw e) => (t, Threw e)
  | (t, OutOfFuel) => (t, OutOfFuel)
  end.

Definition emit (e : Event) : Eff unit := ([e], Done tt).

Definition throw {A : Type} (message : option string) : Eff A := ([], Threw message).

Notation "x <- m ;; k" := (bind m (fun x => k))
  (at level 100, m at next level, right associativity).
Notation "m ;; k" := (bind m (fun _ => k))
  (at level 100, right associativity).

(** [try { body } catch (error) { handler(error) } finally { final }] *)
Definition tryCatchFinally (body : Eff unit) (handler : option string -> Eff unit)
  (final : Eff unit) : Eff unit :=
  match body with
  | (t, Threw e) => (t, Done tt) ;; handler e ;; final
  | (t, Done _) => (t, Done tt) ;; final
  | (t, OutOfFuel) => (t, OutOfFuel)
  end.

Definition addLog (l : Level) (m : Message) : Eff unit :=
  emit (AddLog {| level := l; message := m |}).

Section HandleSubmit.

(** The description's default ends in two emoji, outside the characters
    modelled here: it is taken as given. *)
Variable DEFAULT_DESCRIPTION : string.

(** The fate of the request of each run. *)
Variable server : nat -> Payload -> Reply.

Variable state : State.
Variable formData : FormData.

Definition prompt_ : string := nullish (get_prompt formData) DEFAULT_PROMPT.
Definition titleTemplate : string := nullish (get_title formData) "Dog Park Dash"%string.
Definition description_ : string := nullish (get_description formData) DEFAULT_DESCRIPTION.
Definition hashtagsRaw : string := nullish (get_hashtags formData) ""%string.
Definition stylePreset_ : string := nullish (get_stylePreset formData) ""%string.
Definition negativePrompt_ : string := nullish (get_negativePrompt formData) ""%string.
Definition publishAtRaw : string := nullish (get_publishAt formData) ""%string.

Definition tags_ : list string :=
  filter truthy (map (fun tag => stripHash (trim tag)) (split hashtagsRaw)).

Definition safeDuration : number :=
  Math_min (Math_max (Number (durationSeconds state)) (Num 3)) (Num 120).

Definition safeBatchCount : number :=
  Math_min (Math_max (Number (batchCount state)) (Num 1)) (Num 10).

Definition label (index : nat) : Label :=
  if ltb (Num 1) safeBatchCount then Batch (index + 1) safeBatchCount else Run.

Definition payload (index : nat) : Payload :=
  {| prompt := prompt_;
     p_aspectRatio := aspectRatio state;
     p_durationSeconds := safeDuration;
     negativePrompt := orUndefined negativePrompt_;
     stylePreset := orUndefined stylePreset_;
     title :=
       if ltb (Num 1) safeBatchCount
       then (trim titleTemplate ++ " #" ++ String_of_nat (index + 1))%string
       else trim titleTemplate;
     description := description_;
     tags := tags_;
     p_visibility := visibility state;
     publishAt := orUndefined publishAtRaw;
     p_uploadToYoutube := uploadToYoutube state;
     p_keepLocalFile := keepLocalFile state |}.

(** [await fetch("/api/pipeline", ...)] *)
Definition fetch (index : nat) (p : Payload) : Eff Reply :=
  emit (Dispatched index p) ;;
  match server index p with
  | Rejects e => emit (Rejected index) ;; throw e
  | reply => emit (Received index) ;; ret reply
  end.

(** [await response.json()] *)
Definition response_json (index : nat) (response : Reply) : Eff Reply :=
  match response with
  | Unreadable e => emit (BodyFailed index) ;; throw e
  | data => emit (Consumed index) ;; ret data
  end.

(** The body of the [for] loop, for one value of [index]. *)
Definition iteration (index : nat) : Eff unit :=
  addLog info (Dispatching (label index)) ;;
  response <- fetch index (payload index) ;;
  data <- response_json index response ;;
  match data with
  | Failure status errorMessage =>
      addLog error (PipelineFailed (label index) errorMessage status)
  | Malformed e => throw e
  | Success r =>
      addLog success (GenerationCompleted (label index) (jobId r)) ;;
      (if mock r && uploadToYoutube state &&
          match youtube r with Some (YoutubeSkipped _) => true | _ => false end
       then addLog info MockMode else ret tt) ;;
      match youtube r with
      | Some (YoutubeUploaded v id) => addLog success (Uploaded (label index) v id)
      | Some (YoutubeSkipped reason)
      | Some (YoutubeOther reason) => addLog info (UploadSkipped (label index) reason)
      | None => ret tt
      end
  | Rejects e | Unreadable e => throw e
  end.

(** [for (let index = ...; index < safeBatchCount; index += 1) { ... }] *)
Fixpoint forLoop (fuel index : nat) : Eff unit :=
  match fuel with
  | O => ([], OutOfFuel)
  | S fuel' =>
      if ltb (of_nat index) safeBatchCount
      then iteration index ;; forLoop fuel' (S index)
      else ret tt
  end.

(** [handleSubmit(event)].  Eleven rounds of the loop's test are enough:
    [handleSubmit_terminates] in Part II. *)
Definition handleSubmit : Eff unit :=
  if isSubmitting state then ret tt
  else
    emit ResetLogs ;;
    emit (SetIsSubmitting true) ;;
    tryCatchFinally
      (forLoop 11 0)
      (fun e => addLog error (Caught e))
      (emit (SetIsSubmitting false)).

End HandleSubmit.

(** [JSON.stringify(payload)], as the route reads it back: a property that
    is [undefined] is left out, and a number that is not finite is [null]. *)
Definition stringifyNumber (n : number) : Route.json :=
  match n with
  | Num q => Route.JNum (Num q)
  | PosInf | NegInf | NaN => Route.JNull
  end.

Definition stringifyOptional (key : string) (x : option string)
  : list (string * Route.json) :=
  match x with Some s => [(key, Route.JStr s)] | None => [] end.

Definition stringify (p : Payload) : Route.json :=
  Route.JObj
    (List.concat
       [[("prompt", Route.JStr (prompt p));
         ("aspectRatio", Route.JStr (p_aspectRatio p));
         ("durationSeconds", stringifyNumber (p_durationSeconds p))];
        stringifyOptional "negativePrompt" (negativePrompt p);
        stringifyOptional "stylePreset" (stylePreset p);
        [("title", Route.JStr (title p));
         ("description", Route.JStr (description p));
         ("tags", Route.JArr (map Route.JStr (tags p)));
         ("visibility", Route.JStr (p_visibility p))];
        stringifyOptional "publishAt" (publishAt p);
        [("uploadToYoutube", Route.JBool (p_uploadToYoutube p));
         ("keepLocalFile", Route.JBool (p_keepLocalFile p))]])%string.

(** The requests of a trace, in the order they were dispatched. *)
Fixpoint dispatched (t : list Event) : list Payload :=
  match t with
  | [] => []
  | Dispatched _ p :: t' => p :: dispatched t'
  | _ :: t' => dispatched t'
  end.

(** The runs in flight after a trace. *)
Definition settle (run : nat) (inFlight : list nat) : list nat :=
  filter (fun r => negb (Nat.eqb r run)) inFlight.

Definition track (inFlight : list nat) (e : Event) : list nat :=
  match e with
  | Dispatched run _ => run :: inFlight
  | Consumed run | Rejected run | BodyFailed run => settle run inFlight
  | _ => inFlight
  end.

Definition inFlight (t : list Event) : list nat := fold_left track t [].

(** Run [k] was dispatched, answered and read, in this order, within [pre]. *)
Definition CompletedIn (k : nat) (pre : list Event) : Prop :=
  exists p a b c d,
    pre = a ++ Dispatched k p :: b ++ Received k :: c ++ Consumed k :: d.

(** Strictly sequential: where the request of run [k+1] is dispatched, run
    [k] is complete. *)
Definition Sequential (t : list Event) : Prop :=
  forall pre k p post, t = pre ++ Dispatched (S k) p :: post -> CompletedIn k pre.

(** At no point of the trace are two runs in flight. *)
Definition OneAtATime (t : list Event) : Prop :=
  forall pre post, t = pre ++ post -> (List.length (inFlight pre) <= 1)%nat.

(** The request of a run ends in an exception: it is rejected, its body
    cannot be read, or its result cannot be read. *)
Definition throws (r : Reply) : bool :=
  match r with
  | Rejects _ | Unreadable _ | Malformed _ => true
  | Failure _ _ | Success _ => false
  end.

Definition isNetwork (e : Event) : bool :=
  match e with
  | Dispatched _ _ | Received _ | Consumed _ | Rejected _ | BodyFailed _ => true
  | _ => false
  end.

(** How one round of the loop ends, by the fate of its request: the events
    of the round and its outcome. *)
Inductive Round (P : nat -> Payload) (index : nat) : Eff unit -> Prop :=
| Round_rejects l e :
    Round P index ([AddLog l; Dispatched index (P index); Rejected index], Threw e)
| Round_unreadable l e :
    Round P index
      ([AddLog l; Dispatched index (P index); Received index; BodyFailed index],
       Threw e)
| Round_malformed l e :
    Round P index
      ([AddLog l; Dispatched index (P index); Received index; Consumed index],
       Threw e)
| Round_done l logs :
    existsb isNetwork logs = false ->
    Round P index
      (AddLog l :: Dispatched index (P index) :: Received index
         :: Consumed index :: logs,
       Done tt).

(** The traces of a batch that starts at run [i] and posts [P k] for run
    [k]: whole runs one after the other, the last one possibly cut short by
    a rejected request or an unreadable body, with log and state events in
    between. *)
Inductive Runs (P : nat -> Payload) : nat -> list Event -> Prop :=
| Runs_end i : Runs P i []
| Runs_quiet i e t : isNetwork e = false -> Runs P i t -> Runs P i (e :: t)
| Runs_complete i t :
    Runs P (S i) t ->
    Runs P i (Dispatched i (P i) :: Received i :: Consumed i :: t)
| Runs_rejected i t :
    existsb isNetwork t = false ->
    Runs P i (Dispatched i (P i) :: Rejected i :: t)
| Runs_bodyFailed i t :
    existsb isNetwork t = false ->
    Runs P i (Dispatched i (P i) :: Received i :: BodyFailed i :: t).

End Page.

(** ** The orchestration pipeline ([@/lib/pipeline]) *)

Module Pipeline.
Import JS.

(** Modelled from the spec: the data model of section 3.  The module
    [@/lib/pipeline] ([runContentFactory] and its clients) is missing from
    the sources. *)
Inductive GenerationStatus : Type := completed | failed_generation.

Record GenerationRequest : Type := {
  g_prompt : string;
  g_aspectRatio : Route.AspectRatio;
  g_durationSeconds : number;
  g_negativePrompt : option string;
  g_stylePreset : option string;
  g_audioPrompt : option string
}.

Record GenerationResult : Type := {
  jobId : string;
  assetLocation : string;
  mock : bool;
  status : GenerationStatus
}.

Record PublishRequest : Type := {
  p_title : string;
  p_description : string;
  p_tags : list string;
  p_visibility : Route.Visibility;
  p_publishAt : option string
}.

Inductive UploadOutcome : Type :=
| uploaded (videoId : string) (visibility : Route.Visibility)
| skipped (reason : string)
| failed (cause : string).

Record PipelineResult : Type := {
  video : GenerationResult;
  youtube : option UploadOutcome;
  durationMs : nat
}.

(** Modelled from the spec: the error classes of section 7 that a run can
    throw ([@/lib/pipeline] is missing from the sources). *)
Inductive PipelineError : Type :=
| GenerationFailed (detail : string)
| GenerationTimeout.

(** Modelled from the spec: "All failures carry a human-readable message"
    (section 7); the errors of [@/lib/pipeline] are missing from the sources. *)
Definition errorMessage (e : PipelineError) : string :=
  match e with
  | GenerationFailed detail => ("Generation failed: " ++ detail)%string
  | GenerationTimeout => "Generation timed out"%string
  end.

(** Modelled from the spec: "Duration is always clamped to [3, 120]"
    (section 8); the normalisation step of [@/lib/pipeline] is missing from
    the sources. *)
Definition clampDuration (d : number) : number :=
  Math_min (Math_max d (Num 3)) (Num 120).

Section Run.

(** Modelled from the spec: the configuration surface of section 6 and the
    clients of sections 4.2 to 4.4, which [@/lib/pipeline] reads and calls
    and which are missing from the sources. *)
Variable mockPipeline : bool.
Variable hasGenerationCredentials : bool.
Variable hasUploadCredentials : bool.
Variable defaultVisibility : Route.Visibility.
Variable elapsedMs : nat.

Variable generate : GenerationRequest -> GenerationResult + PipelineError.
Variable mockGenerate : GenerationRequest -> GenerationResult.
Variable upload : GenerationResult -> PublishRequest -> (string * Route.Visibility) + string.

(** Modelled from the spec: step 1 of section 4.1, the generation request
    with its duration clamped, and the publish request ([@/lib/pipeline] is
    missing from the sources).  The tags are those of the request: the tag
    code that is under the sources is the dashboard's ([Page.tags_]), and no
    further normalisation is modelled here. *)
Definition generationRequest (request : Route.ContentFactoryRequest) : GenerationRequest :=
  {| g_prompt := Route.prompt request;
     g_aspectRatio := Route.aspectRatio request;
     g_durationSeconds := clampDuration (Route.durationSeconds request);
     g_negativePrompt := Route.negativePrompt request;
     g_stylePreset := Route.stylePreset request;
     g_audioPrompt := Route.audioPrompt request |}.

Definition publishRequest (request : Route.ContentFactoryRequest) : PublishRequest :=
  {| p_title := Route.title request;
     p_description := Route.description request;
     p_tags := nullish (Route.tags request) [];
     p_visibility := nullish (Route.visibility request) defaultVisibility;
     p_publishAt := Route.publishAt request |}.

(** Modelled from the spec: step 2 of section 4.1, the mode of a run
    ([@/lib/pipeline] is missing from the sources). *)
Definition mockMode : bool := mockPipeline || negb hasGenerationCredentials.

(** Modelled from the spec: steps 4 to 6 of section 4.1, the upload leg after
    a generation that returned; a failing upload is kept as the [failed]
    variant ([@/lib/pipeline] is missing from the sources). *)
Definition uploadLeg (request : Route.ContentFactoryRequest) (v : GenerationResult)
  : UploadOutcome :=
  match Route.uploadToYoutube request with
  | Some true =>
      match status v with
      | failed_generation => skipped "generation failed"
      | completed =>
          if mockMode then skipped "mock mode"
          else if negb hasUploadCredentials then skipped "missing credentials"
          else
            match upload v (publishRequest request) with
            | inl (videoId, visibility) => uploaded videoId visibility
            | inr cause => failed cause
            end
      end
  | _ => skipped "not requested"
  end.

(** Modelled from the spec: the algorithm of section 4.1, [run(request)]
    ([runContentFactory] of [@/lib/pipeline], missing from the sources).  A
    failing generation aborts the run with the error; nothing else does. *)
Definition run (request : Route.ContentFactoryRequest) : PipelineResult + PipelineError :=
  let generated :=
    if mockMode then inl (mockGenerate (generationRequest request))
    else generate (generationRequest request) in
  match generated with
  | inr e => inr e
  | inl v =>
      inl {| video := v;
             youtube := Some (uploadLeg request v);
             durationMs := elapsedMs |}
  end.

End Run.

End Pipeline.

(** ** Sample inputs *)

Module Sample.
Import JS.

(** The form as the page renders it, with the title padded by blanks. *)
Definition form : Page.FormData :=
  {| Page.get_prompt := Some Page.DEFAULT_PROMPT;
     Page.get_title := Some "  Ultimate Dog Park Dash "%string;
     Page.get_description := Some "Watch this adorable pup tear up the dog park!"%string;
     Page.get_hashtags := Some "#dog dog Shorts"%string;
     Page.get_stylePreset := Some ""%string;
     Page.get_negativePrompt := Some ""%string;
     Page.get_publishAt := Some ""%string |}.

(** The page's initial state, with a duration and a batch count typed in. *)
Definition state (duration batch : number) : Page.State :=
  {| Page.isSubmitting := false;
     Page.uploadToYoutube := true;
     Page.keepLocalFile := false;
     Page.visibility := "unlisted";
     Page.aspectRatio := "9:16";
     Page.durationSeconds := duration;
     Page.batchCount := batch |}.

(** A server in mock mode, and one that cannot be reached. *)
Definition mockServer (index : nat) (p : Page.Payload) : Page.Reply :=
  Page.Success {| Page.jobId := "mock-job";
                  Page.mock := true;
                  Page.youtube := Some (Page.YoutubeSkipped (Some "mock mode"%string)) |}.

Definition unreachable (index : nat) (p : Page.Payload) : Page.Reply :=
  Page.Rejects (Some "Failed to fetch"%string).

(** [handleSubmit] on the sample form; the trace and the requests of it. *)
Definition submit (server : nat -> Page.Payload -> Page.Reply) (duration batch : number)
  : list Page.Event :=
  fst (Page.handleSubmit ""%string server (state duration batch) form).

Definition requests (server : nat -> Page.Payload -> Page.Reply) (duration batch : number)
  : list Page.Payload :=
  Page.dispatched (submit server duration batch).

(** A stand-in for [Number(s)] that reads the strings of decimal digits (and
    the empty string, as 0); it is NaN elsewhere. *)
Fixpoint digits (acc : Z) (s : string) : option Z :=
  match s with
  | EmptyString => Some acc
  | String c s' =>
      let n := nat_of_ascii c in
      if ((48 <=? n) && (n <=? 57))%nat
      then digits (10 * acc + Z.of_nat (n - 48)) s'
      else None
  end.

Definition decimal (s : string) : number :=
  match digits 0 s with Some z => of_Z z | None => NaN end.

(** A stand-in for [String(n)], which no sample goes through. *)
Definition noString (n : number) : string := ""%string.

(** The modelled pipeline in mock mode, as the route's [runContentFactory]. *)
Definition mockVideo (r : Pipeline.GenerationRequest) : Pipeline.GenerationResult :=
  {| Pipeline.jobId := "mock-job";
     Pipeline.assetLocation := "mock://asset";
     Pipeline.mock := true;
     Pipeline.status := Pipeline.completed |}.

Definition runContentFactory (input : Route.ContentFactoryRequest)
  : Pipeline.PipelineResult + string :=
  match
    Pipeline.run true false false Route.Unlisted 0
      (fun _ => inr Pipeline.GenerationTimeout) mockVideo
      (fun _ _ => inr "no upload in mock mode"%string) input
  with
  | inl r => inl r
  | inr e => inr (Pipeline.errorMessage e)
  end.

(** A live run whose generation succeeds and whose upload fails. *)
Definition liveVideo : Pipeline.GenerationResult :=
  {| Pipeline.jobId := "veo-job-1";
     Pipeline.assetLocation := "https://assets.example/veo-job-1.mp4";
     Pipeline.mock := false;
     Pipeline.status := Pipeline.completed |}.

Definition liveRun (input : Route.ContentFactoryRequest)
  : Pipeline.PipelineResult + Pipeline.PipelineError :=
  Pipeline.run false true true Route.Unlisted 0
    (fun _ => inl liveVideo) mockVideo
    (fun _ _ => inr "quotaExceeded"%string) input.

Definition POST (request : string + Route.json) : Route.Handled Pipeline.PipelineResult :=
  Route.POST decimal noString runContentFactory request.

(** Payloads: a valid one that leaves out [aspectRatio] and
    [durationSeconds]; one with the duration as a string; one with a prompt
    of four characters; one with a duration of 200. *)
Definition basePayload : list (string * Route.json) :=
  [("title", Route.JStr "Dog Park Dash");
   ("description", Route.JStr "Watch this adorable pup!");
   ("tags", Route.JArr [Route.JStr "#dog"; Route.JStr "dog"; Route.JStr "Shorts"]);
   ("uploadToYoutube", Route.JBool true)]%string.

Definition minimalPayload : list (string * Route.json) :=
  (("prompt", Route.JStr "A puppy in the park") :: basePayload)%string.

(** What the schema makes of [minimalPayload]. *)
Definition minimalInput : Route.ContentFactoryRequest :=
  {| Route.prompt := "A puppy in the park";
     Route.aspectRatio := Route.Ratio_9_16;
     Route.durationSeconds := Num 15;
     Route.negativePrompt := None;
     Route.stylePreset := None;
     Route.audioPrompt := None;
     Route.title := "Dog Park Dash";
     Route.description := "Watch this adorable pup!";
     Route.tags := Some ["#dog"; "dog"; "Shorts"]%string;
     Route.publishAt := None;
     Route.visibility := None;
     Route.uploadToYoutube := Some true;
     Route.keepLocalFile := None |}.

Definition stringDurationPayload : list (string * Route.json) :=
  (("durationSeconds", Route.JStr "30") :: minimalPayload)%string.

Definition shortPromptPayload : list (string * Route.json) :=
  (("prompt", Route.JStr "Dogs") :: basePayload)%string.

Definition longDurationPayload : list (string * Route.json) :=
  (("durationSeconds", Route.JNum (Num 200)) :: minimalPayload)%string.

End Sample.

(** ** [page.tsx]: the activity log and the mock-mode warning *)

Module PageLogs.
Import JS Page.

(** [s.toLowerCase()] on code units below 256: the letters A to Z and the
    accented capitals from 192 to 222, the multiplication sign 215 apart,
    move up by 32. *)
Definition toLowerCaseChar (c : ascii) : ascii :=
  let n := nat_of_ascii c in
  if ((65 <=? n) && (n <=? 90) || (192 <=? n) && (n <=? 222) && negb (n =? 215))%nat
  then ascii_of_nat (n + 32)
  else c.

Fixpoint toLowerCase (s : string) : string :=
  match s with
  | EmptyString => EmptyString
  | String c s' => String (toLowerCaseChar c) (toLowerCase s')
  end.

(** [s.includes(needle)] *)
Fixpoint includes (needle s : string) : bool :=
  String.prefix needle s ||
  match s with
  | EmptyString => false
  | String _ s' => includes needle s'
  end.

Section Text.

(** The horizontal ellipsis that ends the dispatch message lies outside the
    characters modelled here and is taken as given; so is [String(n)] on the
    batch count, which prints a floating-point number. *)
Variable ELLIPSIS : string.
Variable NumberToString : number -> string.

(** The template literal [label]. *)
Definition labelText (l : Label) : string :=
  match l with
  | Batch run total =>
      ("Batch " ++ String_of_nat run ++ "/" ++ NumberToString total)%string
  | Run => "Run"%string
  end.

(** The [message] of each log entry, as [handleSubmit] writes it. *)
Definition messageText (m : Message) : string :=
  match m with
  | Dispatching l =>
      (labelText l ++ ": Dispatching Veo generation job" ++ ELLIPSIS)%string
  | PipelineFailed l errorMessage status =>
      (labelText l ++ ": " ++
       nullish errorMessage
         ("Pipeline failed with status " ++ String_of_nat status ++
          ". Check server logs for details."))%string
  | GenerationCompleted l jobId =>
      (labelText l ++ ": Video generation completed (job " ++ jobId ++ ").")%string
  | MockMode =>
      "Pipeline is running in mock mode. Provide VEO credentials to enable real video output and YouTube uploads."%string
  | Uploaded l visibility _ =>
      (labelText l ++ ": Uploaded to YouTube (visibility: " ++ visibility ++ ")")%string
  | UploadSkipped l reason =>
      (labelText l ++ ": YouTube upload skipped: " ++ nullish reason "undefined")%string
  | Caught message => nullish message "Unexpected pipeline error."%string
  end.

Definition isInfo (l : Level) : bool :=
  match l with info => true | _ => false end.

(** [hasMockWarning]: some entry of level "info" mentions mock mode. *)
Definition hasMockWarning (logs : list LogEntry) : bool :=
  existsb
    (fun log =>
       isInfo (level log) &&
       includes "mock mode" (toLowerCase (messageText (message log))))
    logs.

End Text.

(** The [logs] state under the events of a trace: [resetLogs] empties it and
    [addLog] puts the entry in front. *)
Definition applyLog (logs : list LogEntry) (e : Event) : list LogEntry :=
  match e with
  | ResetLogs => []
  | AddLog entry => entry :: logs
  | _ => logs
  end.

Definition logsAfter (logs : list LogEntry) (t : list Event) : list LogEntry :=
  fold_left applyLog t logs.

(** The [isSubmitting] state under the events of a trace. *)
Definition applySubmitting (b : bool) (e : Event) : bool :=
  match e with SetIsSubmitting b' => b' | _ => b end.

Definition submittingAfter (b : bool) (t : list Event) : bool :=
  fold_left applySubmitting t b.

(** The entries a trace adds, in the order they are added. *)
Fixpoint added (t : list Event) : list LogEntry :=
  match t with
  | [] => []
  | AddLog entry :: t' => entry :: added t'
  | _ :: t' => added t'
  end.

Definition isState (e : Event) : bool :=
  match e with ResetLogs | SetIsSubmitting _ => true | _ => false end.

(** No comma and no white space in a string. *)
Fixpoint noSeparator (s : string) : bool :=
  match s with
  | EmptyString => true
  | String c s' => negb (isSeparator c) && noSeparator s'
  end.

(** Two payloads that agree on every property but the title. *)
Definition sameButTitle (p p' : Payload) : Prop :=
  prompt p = prompt p' /\
  p_aspectRatio p = p_aspectRatio p' /\
  p_durationSeconds p = p_durationSeconds p' /\
  negativePrompt p = negativePrompt p' /\
  stylePreset p = stylePreset p' /\
  description p = description p' /\
  tags p = tags p' /\
  p_visibility p = p_visibility p' /\
  publishAt p = publishAt p' /\
  p_uploadToYoutube p = p_uploadToYoutube p' /\
  p_keepLocalFile p = p_keepLocalFile p'.

(** What the schema makes of a posted payload that meets its constraints. *)
Definition parsedPayload (p : Payload) (a : Route.AspectRatio) (v : Route.Visibility)
  : Route.ContentFactoryRequest :=
  {| Route.prompt := Page.prompt p;
     Route.aspectRatio := a;
     Route.durationSeconds := p_durationSeconds p;
     Route.negativePrompt := Page.negativePrompt p;
     Route.stylePreset := Page.stylePreset p;
     Route.audioPrompt := None;
     Route.title := Page.title p;
     Route.description := Page.description p;
     Route.tags := Some (Page.tags p);
     Route.publishAt := Page.publishAt p;
     Route.visibility := Some v;
     Route.uploadToYoutube := Some (p_uploadToYoutube p);
     Route.keepLocalFile := Some (p_keepLocalFile p) |}.

End PageLogs.

(** ** [route.ts]: what the schema reports and what it reads *)

Module RouteIssues.
Import JS Route.

(** The issues of a parse, none when it succeeded. *)
Definition issuesOf {I A : Type} (r : parsed I A) : list I :=
  match r with inl issues => issues | inr _ => [] end.

(** The thirteen properties that [requestSchema] names. *)
Definition schemaKeys : list string :=
  ["prompt"; "aspectRatio"; "durationSeconds"; "negativePrompt"; "stylePreset";
   "audioPrompt"; "title"; "description"; "tags"; "publishAt"; "visibility";
   "uploadToYoutube"; "keepLocalFile"]%string.

(** Whether a parse failed. *)
Definition failed {I A : Type} (r : parsed I A) : bool :=
  match r with inl _ => true | inr _ => false end.

(** A schema that never fails without an issue. *)
Definition strict {A : Type} (s : schema A) : Prop :=
  forall x codes, s x = inl codes -> codes <> [].

(** A report is sound when it fails exactly if it raises an issue and its
    issues carry its name. *)
Definition sound (r : string * bool * list ZodIssue) : Prop :=
  (snd (fst r) = true <-> snd r <> []) /\
  Forall (fun i => path i = fst (fst r)) (snd r).

Section Reports.

Variable StringToNumber : string -> number.
Variable NumberToString : number -> string.

(** One property of the schema on an object: its name, whether it fails,
    and the issues it raises. *)
Definition report {A : Type} (key : string) (s : schema A) (o : list (string * json))
  : string * bool * list ZodIssue :=
  (key, failed (prop key s o), issuesOf (prop key s o)).

(** The thirteen properties of [requestSchema], in its order. *)
Definition reports (o : list (string * json)) : list (string * bool * list ZodIssue) :=
  [report "prompt" (z_string_min 5) o;
   report "aspectRatio" (default (z_enum aspectRatios) (JStr "9:16")) o;
   report "durationSeconds"
     (default (z_coerce_number_min_max StringToNumber NumberToString 3 120)
        (JNum (Num 15))) o;
   report "negativePrompt" (optional z_string) o;
   report "stylePreset" (optional z_string) o;
   report "audioPrompt" (optional z_string) o;
   report "title" (z_string_min 3) o;
   report "description" (z_string_min 10) o;
   report "tags" (optional (z_array (z_string_min 1))) o;
   report "publishAt" (optional z_string) o;
   report "visibility" (optional (z_enum visibilities)) o;
   report "uploadToYoutube" (optional z_boolean) o;
   report "keepLocalFile" (optional z_boolean) o]%string.

(** The names of the properties of an object that fail. *)
Definition failingProperties (o : list (string * json)) : list string :=
  map (fun r => fst (fst r)) (filter (fun r => snd (fst r)) (reports o)).

End Reports.

End RouteIssues.

(* ===================================================================== *)
(** * Part II: properties                                                  *)
(* ===================================================================== *)

(** ** Numbers: comparisons and clamping *)

Module JSFacts.
Import JS.

Lemma Qltb_true (x y : Q) : Qltb x y = true <-> x < y.
Proof.
  unfold Qltb. rewrite negb_true_iff. split; intro H.
  - apply Qnot_le_lt. intro Hle. apply Qle_bool_iff in Hle. congruence.
  - destruct (Qle_bool y x) eqn:E; [|reflexivity].
    apply Qle_bool_iff in E. exfalso. exact (Qlt_not_le _ _ H E).
Qed.

Lemma Qltb_false (x y : Q) : Qltb x y = false <-> y <= x.
Proof.
  unfold Qltb. rewrite negb_false_iff. apply Qle_bool_iff.
Qed.

Lemma Qle_bool_false (x y : Q) : Qle_bool x y = false <-> y < x.
Proof. rewrite <- Qltb_true. unfold Qltb. now rewrite negb_true_iff. Qed.

Lemma Qltb_compare (x y : Q) : Qltb x y = true <-> (x ?= y) = Lt.
Proof. rewrite Qltb_true. apply Qlt_alt. Qed.

Lemma Qltb_compare_gt (x y : Q) : Qltb y x = true <-> (x ?= y) = Gt.
Proof. rewrite Qltb_true. apply Qgt_alt. Qed.

Lemma Math_max_Num (a b : Q) : Math_max (Num a) (Num b) = Num (Qmax a b).
Proof.
  unfold Math_max, Qmax, GenericMinMax.gmax. cbn [isNaN orb ltb].
  destruct (Qltb a b) eqn:E.
  - now rewrite (proj1 (Qltb_compare a b) E).
  - destruct (a ?= b) eqn:C; try reflexivity.
    rewrite (proj2 (Qltb_compare a b) C) in E. discriminate.
Qed.

Lemma Math_min_Num (a b : Q) : Math_min (Num a) (Num b) = Num (Qmin a b).
Proof.
  unfold Math_min, Qmin, GenericMinMax.gmin. cbn [isNaN orb ltb].
  destruct (Qltb b a) eqn:E.
  - now rewrite (proj1 (Qltb_compare_gt a b) E).
  - destruct (a ?= b) eqn:C; try reflexivity.
    rewrite (proj2 (Qltb_compare_gt a b) C) in E. discriminate.
Qed.

(** [Math.min(Math.max(d, lo), hi)] is the clamp of the specification. *)
Lemma min_max_clampTo (lo hi : Q) (d : number) :
  lo <= hi -> Math_min (Math_max d (Num lo)) (Num hi) = clampTo lo hi d.
Proof.
  intro Hle. destruct d as [q| | |]; cbn [clampTo].
  - now rewrite Math_max_Num, Math_min_Num.
  - reflexivity.
  - unfold Math_max. cbn [isNaN orb ltb]. rewrite Math_min_Num.
    f_equal. unfold Qmin, GenericMinMax.gmin.
    destruct (lo ?= hi) eqn:C; try reflexivity.
    exfalso. exact (Qlt_not_le _ _ (proj2 (Qgt_alt lo hi) C) Hle).
  - reflexivity.
Qed.

(** A clamped number lies within the bounds, unless it is NaN. *)
Lemma clampTo_within (lo hi : Q) (d : number) :
  lo <= hi -> isNaN d = false -> within lo hi (clampTo lo hi d).
Proof.
  intros Hle Hd. destruct d as [q| | |]; cbn [clampTo]; try discriminate.
  - exists (Qmin (Qmax q lo) hi). split; [reflexivity|]. split.
    + apply Q.min_glb; [apply Q.le_max_r | exact Hle].
    + apply Q.le_min_r.
  - exists hi. split; [reflexivity|]. split; [exact Hle | apply Qle_refl].
  - exists lo. split; [reflexivity|]. split; [apply Qle_refl | exact Hle].
Qed.

(** A number within the bounds is left as it is. *)
Lemma clampTo_id (lo hi q : Q) :
  lo <= q -> q <= hi -> clampTo lo hi (Num q) = Num q.
Proof.
  intros H1 H2. cbn [clampTo]. f_equal.
  unfold Qmin, Qmax, GenericMinMax.gmin, GenericMinMax.gmax.
  destruct (q ?= lo) eqn:C1.
  - destruct (q ?= hi) eqn:C2; try reflexivity.
    exfalso. exact (Qlt_not_le _ _ (proj2 (Qgt_alt q hi) C2) H2).
  - exfalso. exact (Qlt_not_le _ _ (proj2 (Qlt_alt q lo) C1) H1).
  - destruct (q ?= hi) eqn:C2; try reflexivity.
    exfalso. exact (Qlt_not_le _ _ (proj2 (Qgt_alt q hi) C2) H2).
Qed.

End JSFacts.

(** ** The batch loop of [handleSubmit] *)

Module PageFacts.
Import JS JSFacts Page.

Lemma dispatched_app (t t' : list Event) :
  dispatched (t ++ t') = dispatched t ++ dispatched t'.
Proof.
  induction t as [|e t IH]; [reflexivity|].
  destruct e; cbn [dispatched app]; rewrite IH; reflexivity.
Qed.

Lemma dispatched_quiet (t : list Event) :
  existsb isNetwork t = false -> dispatched t = [].
Proof.
  induction t as [|e t IH]; [reflexivity|].
  cbn [existsb]. intro H. apply orb_false_iff in H. destruct H as [He Ht].
  destruct e; try discriminate; cbn [dispatched]; auto.
Qed.

Lemma quiet_app (t t' : list Event) :
  existsb isNetwork t = false -> existsb isNetwork t' = false ->
  existsb isNetwork (t ++ t') = false.
Proof. intros H H'. rewrite existsb_app, H, H'. reflexivity. Qed.

Lemma fst_bind {A B : Type} (m : Eff A) (k : A -> Eff B) :
  fst (bind m k) =
  fst m ++ match snd m with Done a => fst (k a) | _ => [] end.
Proof.
  destruct m as [t [a|e|]]; cbn [bind fst snd].
  - destruct (k a); reflexivity.
  - now rewrite app_nil_r.
  - now rewrite app_nil_r.
Qed.

Lemma snd_bind {A B : Type} (m : Eff A) (k : A -> Eff B) :
  snd (bind m k) =
  match snd m with Done a => snd (k a) | Threw e => Threw e | OutOfFuel => OutOfFuel end.
Proof.
  destruct m as [t [a|e|]]; cbn [bind fst snd]; try reflexivity.
  destruct (k a); reflexivity.
Qed.

Section Batch.

Variable DEFAULT_DESCRIPTION : string.
Variable server : nat -> Payload -> Reply.
Variable state : State.
Variable formData : FormData.

Local Abbreviation payload := (payload DEFAULT_DESCRIPTION state formData).
Local Abbreviation iteration := (iteration DEFAULT_DESCRIPTION server state formData).
Local Abbreviation forLoop := (forLoop DEFAULT_DESCRIPTION server state formData).
Local Abbreviation handleSubmit := (handleSubmit DEFAULT_DESCRIPTION server state formData).
Local Abbreviation safeBatchCount := (safeBatchCount state).

(** One round of the loop ends as [Round] describes. *)
Lemma iteration_round (index : nat) : Round payload index (iteration index).
Proof.
  unfold Page.iteration, fetch, response_json, addLog, emit, throw, ret.
  destruct (server index (payload index)) as [e|e|s m|e|r] eqn:E;
    cbn [bind app fst snd].
  - apply Round_rejects.
  - apply Round_unreadable.
  - apply Round_done. reflexivity.
  - apply Round_malformed.
  - destruct (mock r && uploadToYoutube state &&
              match youtube r with Some (YoutubeSkipped _) => true | _ => false end);
      destruct (youtube r) as [[v i|reason|reason]|];
      cbn [bind app fst snd]; apply Round_done; reflexivity.
Qed.

(** *** The shape of the trace *)

Lemma Runs_quiet_app (P : nat -> Payload) (i : nat) (logs t : list Event) :
  existsb isNetwork logs = false -> Runs P i t -> Runs P i (logs ++ t).
Proof.
  induction logs as [|e logs IH]; intros Hq Ht; [exact Ht|].
  cbn [existsb] in Hq. apply orb_false_iff in Hq. destruct Hq as [He Hq].
  cbn [app]. apply Runs_quiet; auto.
Qed.

Lemma Runs_of_quiet (P : nat -> Payload) (i : nat) (t : list Event) :
  existsb isNetwork t = false -> Runs P i t.
Proof.
  intro Hq. rewrite <- (app_nil_r t). apply Runs_quiet_app; [exact Hq | apply Runs_end].
Qed.

Lemma forLoop_Runs (fuel index : nat) (tail : list Event) :
  existsb isNetwork tail = false ->
  Runs payload index (fst (forLoop fuel index) ++ tail).
Proof.
  intro Htail. revert index.
  induction fuel as [|fuel IH]; intro index; cbn [Page.forLoop].
  - apply Runs_of_quiet. exact Htail.
  - destruct (ltb (of_nat index) safeBatchCount).
    + rewrite fst_bind.
      destruct (iteration_round index) as [l e|l e|l e|l logs Hlogs];
        cbn [fst snd app].
      * apply Runs_quiet; [reflexivity|]. apply Runs_rejected. exact Htail.
      * apply Runs_quiet; [reflexivity|]. apply Runs_bodyFailed. exact Htail.
      * apply Runs_quiet; [reflexivity|]. apply Runs_complete.
        apply Runs_of_quiet. exact Htail.
      * apply Runs_quiet; [reflexivity|]. apply Runs_complete.
        rewrite <- app_assoc. apply Runs_quiet_app; [exact Hlogs | apply IH].
    + apply Runs_of_quiet. exact Htail.
Qed.

Lemma tryCatchFinally_trace (body : Eff unit) :
  exists tail,
    existsb isNetwork tail = false /\
    fst (tryCatchFinally body (fun e => addLog error (Caught e))
           (emit (SetIsSubmitting false))) = fst body ++ tail.
Proof.
  destruct body as [t [[]|e|]]; cbn.
  - exists [SetIsSubmitting false]. split; reflexivity.
  - eexists. split; [|reflexivity]. reflexivity.
  - exists []. split; [reflexivity | now rewrite app_nil_r].
Qed.

Lemma handleSubmit_Runs : Runs payload 0 (fst handleSubmit).
Proof.
  unfold Page.handleSubmit. destruct (isSubmitting state).
  - apply Runs_end.
  - rewrite !fst_bind. cbn [emit fst snd app].
    apply Runs_quiet; [reflexivity|]. apply Runs_quiet; [reflexivity|].
    destruct (tryCatchFinally_trace (forLoop 11 0)) as [tail [Hq Heq]].
    rewrite Heq. apply forLoop_Runs. exact Hq.
Qed.

End Batch.

(** *** From the shape of the trace to the order of the requests *)

Lemma quiet_no_dispatch (pre post : list Event) (j : nat) (p : Payload) :
  existsb isNetwork (pre ++ Dispatched j p :: post) = true.
Proof.
  rewrite existsb_app. cbn [existsb isNetwork]. now rewrite orb_true_r.
Qed.

Lemma CompletedIn_cons (k : nat) (e : Event) (pre : list Event) :
  CompletedIn k pre -> CompletedIn k (e :: pre).
Proof.
  intros (p & a & b & c & d & ->). exists p, (e :: a), b, c, d. reflexivity.
Qed.

Lemma Runs_dispatch (P : nat -> Payload) (i : nat) (t : list Event) :
  Runs P i t ->
  forall pre j p post,
    t = pre ++ Dispatched j p :: post ->
    j = i \/ exists k, j = S k /\ (i <= k)%nat /\ CompletedIn k pre.
Proof.
  induction 1 as [i|i e t He Ht IH|i t Ht IH|i t Hq|i t Hq];
    intros pre j p post Heq.
  - destruct pre; discriminate.
  - destruct pre as [|e0 pre]; cbn [app] in Heq.
    + injection Heq as -> _. discriminate.
    + injection Heq as <- Heq.
      destruct (IH _ _ _ _ Heq) as [->|(k & -> & Hle & Hc)]; [now left|].
      right. exists k. repeat split; auto using CompletedIn_cons.
  - destruct pre as [|e1 [|e2 [|e3 pre]]]; cbn [app] in Heq; try discriminate.
    + injection Heq as <- _ _. now left.
    + injection Heq as <- <- <- Heq. right.
      destruct (IH _ _ _ _ Heq) as [->|(k & -> & Hle & Hc)].
      * exists i. repeat split; [lia|]. exists (P i), [], [], [], pre. reflexivity.
      * exists k. repeat split; [lia|]. now do 3 apply CompletedIn_cons.
  - destruct pre as [|e1 [|e2 pre]]; cbn [app] in Heq; try discriminate.
    + injection Heq as <- _ _. now left.
    + injection Heq as _ _ Heq. subst t.
      rewrite quiet_no_dispatch in Hq. discriminate.
  - destruct pre as [|e1 [|e2 [|e3 pre]]]; cbn [app] in Heq; try discriminate.
    + injection Heq as <- _ _. now left.
    + injection Heq as _ _ _ Heq. subst t.
      rewrite quiet_no_dispatch in Hq. discriminate.
Qed.

Lemma Runs_Sequential (P : nat -> Payload) (t : list Event) :
  Runs P 0 t -> Sequential t.
Proof.
  intros Ht pre k p post Heq.
  destruct (@Runs_dispatch P 0 t Ht pre (S k) p post Heq) as [E|(k' & E & _ & Hc)].
  - discriminate.
  - injection E as ->. exact Hc.
Qed.

Lemma inFlight_quiet (t : list Event) (l : list nat) :
  existsb isNetwork t = false -> fold_left track t l = l.
Proof.
  revert l. induction t as [|e t IH]; intros l Hq; [reflexivity|].
  cbn [existsb] in Hq. apply orb_false_iff in Hq. destruct Hq as [He Hq].
  destruct e; try discriminate; cbn [fold_left track]; auto.
Qed.

Lemma quiet_prefix (pre post : list Event) :
  existsb isNetwork (pre ++ post) = false -> existsb isNetwork pre = false.
Proof.
  rewrite existsb_app. intro H. now apply orb_false_iff in H.
Qed.

Lemma settle_self (i : nat) : settle i [i] = [].
Proof. unfold settle. cbn [filter]. now rewrite Nat.eqb_refl. Qed.

Lemma Runs_OneAtATime (P : nat -> Payload) (i : nat) (t : list Event) :
  Runs P i t -> OneAtATime t.
Proof.
  unfold OneAtATime, inFlight.
  induction 1 as [i|i e t He Ht IH|i t Ht IH|i t Hq|i t Hq];
    intros pre post Heq.
  - destruct pre; [cbn; lia | discriminate].
  - destruct pre as [|e0 pre]; cbn [app] in Heq; [cbn; lia|].
    inversion Heq; subst. cbn [fold_left].
    replace (track [] e0) with (@nil nat) by (destruct e0; try discriminate; reflexivity).
    eauto.
  - destruct pre as [|e1 [|e2 [|e3 pre]]]; cbn [app] in Heq;
      inversion Heq; subst; cbn [fold_left track];
      try rewrite settle_self; cbn [List.length]; try lia.
    eauto.
  - destruct pre as [|e1 [|e2 pre]]; cbn [app] in Heq;
      inversion Heq; subst; cbn [fold_left track];
      try rewrite settle_self; cbn [List.length]; try lia.
    rewrite inFlight_quiet by (eapply quiet_prefix; eauto). cbn; lia.
  - destruct pre as [|e1 [|e2 [|e3 pre]]]; cbn [app] in Heq;
      inversion Heq; subst; cbn [fold_left track];
      try rewrite settle_self; cbn [List.length]; try lia.
    rewrite inFlight_quiet by (eapply quiet_prefix; eauto). cbn; lia.
Qed.

(** *** Which requests are dispatched, and how many *)

Lemma ltb_of_nat_of_Z (i : nat) (m : Z) :
  ltb (of_nat i) (of_Z m) = (Z.of_nat i <? m)%Z.
Proof.
  unfold of_nat, of_Z. cbn [ltb]. unfold Qltb, Qle_bool. cbn [Qnum Qden inject_Z].
  rewrite !Z.mul_1_r.
  destruct (Z.leb_spec m (Z.of_nat i)), (Z.ltb_spec (Z.of_nat i) m);
    cbn [negb]; try reflexivity; lia.
Qed.

Lemma clampTo_of_Z (lo hi z : Z) :
  clampTo (inject_Z lo) (inject_Z hi) (of_Z z) = of_Z (Z.min (Z.max z lo) hi).
Proof.
  unfold of_Z. cbn [clampTo]. f_equal.
  unfold Qmin, Qmax, GenericMinMax.gmin, GenericMinMax.gmax.
  assert (Hc : forall a b : Z, (inject_Z a ?= inject_Z b) = (a ?= b)%Z).
  { intros a b. unfold Qcompare. cbn [Qnum Qden inject_Z]. now rewrite !Z.mul_1_r. }
  rewrite Hc.
  destruct (Z.compare_spec z lo); rewrite Hc;
    match goal with |- context [(?a ?= ?b)%Z] => destruct (Z.compare_spec a b) end;
    f_equal; lia.
Qed.

(** The indices below a number are the indices below its ceiling. *)
Lemma ltb_of_nat_ceiling (i : nat) (q : Q) :
  ltb (of_nat i) (Num q) = (Z.of_nat i <? Qceiling q)%Z.
Proof.
  unfold of_nat. cbn [ltb].
  destruct (Z.ltb_spec (Z.of_nat i) (Qceiling q)) as [Hlt|Hge].
  - apply Qltb_true.
    apply Qle_lt_trans with (y := inject_Z (Qceiling q - 1)); [|apply Qceiling_lt].
    rewrite <- Zle_Qle. lia.
  - apply Qltb_false.
    apply Qle_trans with (y := inject_Z (Qceiling q)); [apply Qle_ceiling|].
    rewrite <- Zle_Qle. exact Hge.
Qed.

Lemma Qceiling_bounds (lo hi : Z) (q : Q) :
  inject_Z lo <= q -> q <= inject_Z hi -> (lo <= Qceiling q <= hi)%Z.
Proof.
  intros Hlo Hhi. split.
  - rewrite Zle_Qle. apply Qle_trans with (y := q); [exact Hlo | apply Qle_ceiling].
  - rewrite <- (Qceiling_Z hi). now apply Qceiling_resp_le.
Qed.

Lemma nth_error_map_seq {A : Type} (f : nat -> A) (n i j : nat) (a : A) :
  nth_error (map f (seq i n)) j = Some a -> a = f (i + j)%nat.
Proof.
  revert i j. induction n as [|n IH]; intros i j H.
  - destruct j; discriminate.
  - destruct j as [|j]; cbn [seq map nth_error] in H.
    + injection H as <-. now rewrite Nat.add_0_r.
    + rewrite Nat.add_succ_r. exact (IH (S i) j H).
Qed.

Section Requests.

Variable DEFAULT_DESCRIPTION : string.
Variable server : nat -> Payload -> Reply.
Variable state : State.
Variable formData : FormData.

Local Abbreviation payload := (payload DEFAULT_DESCRIPTION state formData).
Local Abbreviation iteration := (iteration DEFAULT_DESCRIPTION server state formData).
Local Abbreviation forLoop := (forLoop DEFAULT_DESCRIPTION server state formData).
Local Abbreviation handleSubmit := (handleSubmit DEFAULT_DESCRIPTION server state formData).
Local Abbreviation safeBatchCount := (safeBatchCount state).
Local Abbreviation safeDuration := (safeDuration state).

Lemma safeBatchCount_clampTo : safeBatchCount = clampTo 1 10 (batchCount state).
Proof. unfold Page.safeBatchCount, Number. now apply min_max_clampTo. Qed.

Lemma safeDuration_clampTo : safeDuration = clampTo 3 120 (durationSeconds state).
Proof. unfold Page.safeDuration, Number. now apply min_max_clampTo. Qed.

(** The loop's test fails from index 10 on. *)
Lemma loop_test_bound (i : nat) :
  ltb (of_nat i) safeBatchCount = true -> (i < 10)%nat.
Proof.
  rewrite safeBatchCount_clampTo. intro H.
  destruct (isNaN (batchCount state)) eqn:En.
  - destruct (batchCount state); discriminate.
  - destruct (@clampTo_within 1 10 (batchCount state)) as (q & Hq & _ & Hhi);
      [discriminate | exact En |].
    rewrite Hq in H. cbn [ltb of_nat] in H. apply Qltb_true in H.
    pose proof (Qlt_le_trans _ _ _ H Hhi) as Hlt.
    unfold Qlt in Hlt. cbn in Hlt. lia.
Qed.

(** The loop's test holds at index 0, unless the batch count is NaN. *)
Lemma loop_test_first :
  isNaN (batchCount state) = false -> ltb (of_nat 0) safeBatchCount = true.
Proof.
  intro En. rewrite safeBatchCount_clampTo.
  destruct (@clampTo_within 1 10 (batchCount state)) as (q & Hq & Hlo & _);
    [discriminate | exact En |].
  rewrite Hq. cbn [ltb of_nat]. apply Qltb_true.
  apply Qlt_le_trans with (y := 1); [reflexivity | exact Hlo].
Qed.

Lemma iteration_dispatched (index : nat) :
  dispatched (fst (iteration index)) = [payload index].
Proof.
  destruct (iteration_round DEFAULT_DESCRIPTION server state formData index)
    as [l e|l e|l e|l logs Hlogs]; cbn [fst dispatched]; try reflexivity.
  now rewrite (dispatched_quiet _ Hlogs).
Qed.

Lemma iteration_outcome (index : nat) :
  snd (iteration index) = Done tt \/
  (exists e, snd (iteration index) = Threw e) /\
  throws (server index (payload index)) = true.
Proof.
  unfold Page.iteration, fetch, response_json, addLog, emit, throw, ret.
  destruct (server index (payload index)) as [e|e|s m|e|r] eqn:E;
    cbn [bind app fst snd throws]; eauto.
  left.
  destruct (mock r && uploadToYoutube state &&
            match youtube r with Some (YoutubeSkipped _) => true | _ => false end);
    destruct (youtube r) as [[v i|reason|reason]|]; reflexivity.
Qed.

(** The loop dispatches the payloads of consecutive indices, each of which
    passed the loop's test. *)
Lemma forLoop_dispatched (fuel index : nat) :
  exists n,
    dispatched (fst (forLoop fuel index)) = map payload (seq index n) /\
    forall k, (k < n)%nat -> ltb (of_nat (index + k)) safeBatchCount = true.
Proof.
  revert index. induction fuel as [|fuel IH]; intro index; cbn [Page.forLoop].
  - exists 0%nat. split; [reflexivity | intros; lia].
  - destruct (ltb (of_nat index) safeBatchCount) eqn:Etest.
    + rewrite fst_bind, dispatched_app, iteration_dispatched.
      destruct (iteration_outcome index) as [Hd|[[e He] _]].
      * rewrite Hd. destruct (IH (S index)) as (n & Hn & Hk).
        exists (S n). split; [cbn [seq map app]; now rewrite Hn|].
        intros [|k] Hlt; [now rewrite Nat.add_0_r|].
        rewrite Nat.add_succ_r. apply Hk. lia.
      * rewrite He. exists 1%nat. split; [reflexivity|].
        intros k Hlt. replace k with 0%nat by lia. now rewrite Nat.add_0_r.
    + exists 0%nat. split; [reflexivity | intros; lia].
Qed.

Lemma handleSubmit_dispatched_loop :
  dispatched (fst handleSubmit) =
  if isSubmitting state then [] else dispatched (fst (forLoop 11 0)).
Proof.
  unfold Page.handleSubmit. destruct (isSubmitting state); [reflexivity|].
  rewrite !fst_bind. cbn [emit fst snd app dispatched].
  destruct (tryCatchFinally_trace (forLoop 11 0)) as [tail [Hq Heq]].
  rewrite Heq, dispatched_app, (dispatched_quiet _ Hq). apply app_nil_r.
Qed.

(** The requests of one submission are the payloads of the runs 0, ..., n-1
    for some n of at most ten. *)
Lemma handleSubmit_dispatched :
  exists n, (n <= 10)%nat /\ dispatched (fst handleSubmit) = map payload (seq 0 n).
Proof.
  rewrite handleSubmit_dispatched_loop. destruct (isSubmitting state).
  - exists 0%nat. split; [lia | reflexivity].
  - destruct (forLoop_dispatched 11 0) as (n & Hn & Hk).
    exists n. split; [|exact Hn].
    destruct (Nat.le_gt_cases n 10) as [Hle|Hgt]; [exact Hle|].
    pose proof (@loop_test_bound 10 (Hk 10%nat Hgt)). lia.
Qed.

(** The fuel of [handleSubmit] is never used up. *)
Lemma forLoop_fuel (fuel index : nat) :
  (index <= 10)%nat -> (11 <= fuel + index)%nat ->
  snd (forLoop fuel index) <> OutOfFuel.
Proof.
  revert index. induction fuel as [|fuel IH]; intros index Hi Hf; [lia|].
  cbn [Page.forLoop].
  destruct (ltb (of_nat index) safeBatchCount) eqn:Etest; [|discriminate].
  apply loop_test_bound in Etest. rewrite snd_bind.
  destruct (iteration_outcome index) as [Hd|[[e He] _]].
  - rewrite Hd. apply IH; lia.
  - rewrite He. discriminate.
Qed.

Lemma handleSubmit_terminates : snd handleSubmit = Done tt.
Proof.
  unfold Page.handleSubmit. destruct (isSubmitting state); [reflexivity|].
  rewrite !snd_bind. cbn [emit snd].
  pose proof (@forLoop_fuel 11 0 ltac:(lia) ltac:(lia)) as Hfuel.
  destruct (forLoop 11 0) as [t [[]|e|]]; [reflexivity | reflexivity |].
  exfalso. apply Hfuel. reflexivity.
Qed.

(** When no request throws and the loop's test is [index < m], the loop
    dispatches the runs up to [m]. *)
Lemma forLoop_exact (m : Z) (fuel index : nat) :
  (forall i, ltb (of_nat i) safeBatchCount = (Z.of_nat i <? m)%Z) ->
  (forall i p, throws (server i p) = false) ->
  (Z.of_nat index <= m)%Z -> (m < Z.of_nat (fuel + index))%Z ->
  dispatched (fst (forLoop fuel index)) =
  map payload (seq index (Z.to_nat m - index)).
Proof.
  intros Htest Hserver. revert index.
  induction fuel as [|fuel IH]; intros index Hi Hf; [cbn in Hf; lia|].
  cbn [Page.forLoop]. rewrite Htest.
  destruct (Z.ltb_spec (Z.of_nat index) m) as [Hlt|Hge].
  - rewrite fst_bind, dispatched_app, iteration_dispatched.
    destruct (iteration_outcome index) as [Hd|[_ Ht]].
    + rewrite Hd, IH by lia.
      replace (Z.to_nat m - index)%nat with (S (Z.to_nat m - S index)) by lia.
      reflexivity.
    + rewrite Hserver in Ht. discriminate.
  - replace (Z.to_nat m - index)%nat with 0%nat by lia. reflexivity.
Qed.

End Requests.

End PageFacts.

(** ** The request schema and the POST handler *)

Module RouteFacts.
Import JS JSFacts Route.

Lemma ap_inr_inv {I A B : Type} (f : parsed I (A -> B)) (x : parsed I A) (b : B) :
  f <*> x = inr b -> exists g a, f = inr g /\ x = inr a /\ b = g a.
Proof.
  destruct f as [i|g], x as [ix|a]; cbn [ap]; intro H; try discriminate.
  injection H as <-. now exists g, a.
Qed.

Lemma ap_inl_l {I A B : Type} (f : parsed I (A -> B)) (x : parsed I A) :
  (exists i, f = inl i) -> exists i, f <*> x = inl i.
Proof. intros [i ->]. destruct x; cbn [ap]; eauto. Qed.

Lemma ap_inl_r {I A B : Type} (f : parsed I (A -> B)) (x : parsed I A) :
  (exists i, x = inl i) -> exists i, f <*> x = inl i.
Proof. intros [i ->]. destruct f; cbn [ap]; eauto. Qed.

Section Schema.

Variable StringToNumber : string -> number.
Variable NumberToString : number -> string.

Local Abbreviation ToNumber := (ToNumber StringToNumber NumberToString).
Local Abbreviation duration_schema :=
  (default (z_coerce_number_min_max StringToNumber NumberToString 3 120) (JNum (Num 15))).
Local Abbreviation requestSchema := (requestSchema StringToNumber NumberToString).

(** The schema accepts an object exactly when each of its thirteen
    properties parses, and the parsed request holds the parsed properties. *)
Lemma requestSchema_inr (o : list (string * json)) (input : ContentFactoryRequest) :
  requestSchema (JObj o) = inr input <->
  prop "prompt" (z_string_min 5) o = inr (prompt input) /\
  prop "aspectRatio" (default (z_enum aspectRatios) (JStr "9:16")) o
    = inr (aspectRatio input) /\
  prop "durationSeconds" duration_schema o = inr (durationSeconds input) /\
  prop "negativePrompt" (optional z_string) o = inr (negativePrompt input) /\
  prop "stylePreset" (optional z_string) o = inr (stylePreset input) /\
  prop "audioPrompt" (optional z_string) o = inr (audioPrompt input) /\
  prop "title" (z_string_min 3) o = inr (title input) /\
  prop "description" (z_string_min 10) o = inr (description input) /\
  prop "tags" (optional (z_array (z_string_min 1))) o = inr (tags input) /\
  prop "publishAt" (optional z_string) o = inr (publishAt input) /\
  prop "visibility" (optional (z_enum visibilities)) o = inr (visibility input) /\
  prop "uploadToYoutube" (optional z_boolean) o = inr (uploadToYoutube input) /\
  prop "keepLocalFile" (optional z_boolean) o = inr (keepLocalFile input).
Proof.
  unfold Route.requestSchema. split.
  - intro H.
    repeat match type of H with
           | _ <*> _ = inr _ =>
               apply ap_inr_inv in H;
               let g := fresh "g" in let a := fresh "a" in
               let Ha := fresh "Ha" in let Hb := fresh "Hb" in
               destruct H as (g & a & H & Ha & Hb)
           end.
    injection H as <-. subst. cbn. repeat split; assumption.
  - intros (H1 & H2 & H3 & H4 & H5 & H6 & H7 & H8 & H9 & H10 & H11 & H12 & H13).
    rewrite H1, H2, H3, H4, H5, H6, H7, H8, H9, H10, H11, H12, H13.
    destruct input. reflexivity.
Qed.

(** A property that fails makes the object fail. *)
Lemma requestSchema_duration_fails (o : list (string * json)) :
  (exists i, prop "durationSeconds" duration_schema o = inl i) ->
  exists issues, requestSchema (JObj o) = inl issues.
Proof.
  intro H. unfold Route.requestSchema.
  do 10 apply ap_inl_l. apply ap_inl_r. exact H.
Qed.

Lemma requestSchema_prompt_fails (o : list (string * json)) :
  (exists i, prop "prompt" (z_string_min 5) o = inl i) ->
  exists issues, requestSchema (JObj o) = inl issues.
Proof.
  intro H. unfold Route.requestSchema.
  do 12 apply ap_inl_l. apply ap_inl_r. exact H.
Qed.

Lemma prop_inr {A : Type} (key : string) (s : schema A) (o : list (string * json)) (a : A) :
  prop key s o = inr a <-> s (get key o) = inr a.
Proof.
  unfold prop. destruct (s (get key o)); split; intro H;
    try discriminate; congruence.
Qed.

Lemma prop_inl {A : Type} (key : string) (s : schema A) (o : list (string * json)) :
  (exists i, s (get key o) = inl i) -> exists i, prop key s o = inl i.
Proof. intros [i H]. unfold prop. rewrite H. eauto. Qed.

End Schema.

End RouteFacts.

(** ** The embedding at sample inputs *)

(** *** The string built-ins *)

Example sample_split :
  JS.split " #dog,  dog Shorts,"%string = [""; "#dog"; "dog"; "Shorts"; ""]%string /\
  JS.split ""%string = [""]%string.
Proof. split; reflexivity. Qed.

Example sample_trim :
  JS.trim "  Ultimate Dog Park Dash "%string = "Ultimate Dog Park Dash"%string /\
  JS.trim "   "%string = ""%string.
Proof. split; reflexivity. Qed.

Example sample_stripHash :
  map JS.stripHash ["#dog"; "dog"; "##dog"; "#"]%string = ["dog"; "dog"; "#dog"; ""]%string.
Proof. reflexivity. Qed.

(** *** What [handleSubmit] computes on the sample form *)

Example sample_titles_of_a_batch :
  map Page.title (Sample.requests Sample.mockServer (JS.Num 15) (JS.Num 3)) =
  ["Ultimate Dog Park Dash #1"; "Ultimate Dog Park Dash #2";
   "Ultimate Dog Park Dash #3"]%string.
Proof. vm_compute. reflexivity. Qed.

Example sample_title_of_a_single_run :
  map Page.title (Sample.requests Sample.mockServer (JS.Num 15) (JS.Num 1)) =
  ["Ultimate Dog Park Dash"]%string.
Proof. vm_compute. reflexivity. Qed.

Example sample_durations :
  map Page.p_durationSeconds (Sample.requests Sample.mockServer (JS.Num 200) (JS.Num 1)) =
    [JS.Num 120] /\
  map Page.p_durationSeconds (Sample.requests Sample.mockServer (JS.Num (-5)) (JS.Num 1)) =
    [JS.Num 3].
Proof. split; vm_compute; reflexivity. Qed.

(** The page strips one leading '#' from each hashtag and drops the empty
    pieces; it keeps repeated tags. *)
Example sample_tags :
  map Page.tags (Sample.requests Sample.mockServer (JS.Num 15) (JS.Num 1)) =
  [["dog"; "dog"; "Shorts"]]%string.
Proof. vm_compute. reflexivity. Qed.

(** The network events of a batch of two that succeeds. *)
Example sample_network_events :
  filter Page.isNetwork (Sample.submit Sample.mockServer (JS.Num 15) (JS.Num 2)) =
  [Page.Dispatched 0
     (Page.payload ""%string (Sample.state (JS.Num 15) (JS.Num 2)) Sample.form 0);
   Page.Received 0; Page.Consumed 0;
   Page.Dispatched 1
     (Page.payload ""%string (Sample.state (JS.Num 15) (JS.Num 2)) Sample.form 1);
   Page.Received 1; Page.Consumed 1].
Proof. vm_compute. reflexivity. Qed.

Example sample_trace_of_a_failing_batch :
  Sample.submit Sample.unreachable (JS.Num 15) (JS.Num 3) =
  [Page.ResetLogs; Page.SetIsSubmitting true;
   Page.AddLog {| Page.level := Page.info;
                  Page.message := Page.Dispatching (Page.Batch 1 (JS.Num 3)) |};
   Page.Dispatched 0
     (Page.payload ""%string (Sample.state (JS.Num 15) (JS.Num 3)) Sample.form 0);
   Page.Rejected 0;
   Page.AddLog {| Page.level := Page.error;
                  Page.message := Page.Caught (Some "Failed to fetch"%string) |};
   Page.SetIsSubmitting false].
Proof. vm_compute. reflexivity. Qed.

(** *** What the handler answers on the sample payloads *)

Example sample_minimal_payload_is_run :
  Route.status (Route.response (Sample.POST (inr (Route.JObj Sample.minimalPayload)))) = 200%nat /\
  map Route.aspectRatio (Route.invoked (Sample.POST (inr (Route.JObj Sample.minimalPayload))))
    = [Route.Ratio_9_16] /\
  map Route.durationSeconds (Route.invoked (Sample.POST (inr (Route.JObj Sample.minimalPayload))))
    = [JS.Num 15].
Proof. repeat split; vm_compute; reflexivity. Qed.

Example sample_string_duration_is_coerced :
  map Route.durationSeconds
    (Route.invoked (Sample.POST (inr (Route.JObj Sample.stringDurationPayload))))
  = [JS.Num 30].
Proof. vm_compute. reflexivity. Qed.

Example sample_long_duration_is_refused :
  Route.response (Sample.POST (inr (Route.JObj Sample.longDurationPayload))) =
  {| Route.status := 422;
     Route.body :=
       {| Route.ok := false;
          Route.error := Some "Validation failed."%string;
          Route.details :=
            Some (Route.Flattened
                    [{| Route.path := "durationSeconds"; Route.code := Route.too_big |}]);
          Route.result := None |} |}.
Proof. vm_compute. reflexivity. Qed.

Example sample_invalid_json_is_refused :
  Route.status (Route.response (Sample.POST (inl "Unexpected token"%string))) = 400%nat.
Proof. reflexivity. Qed.

(** *** From the dashboard to the pipeline *)

(** A duration of 200 typed into the dashboard reaches the pipeline as 120:
    each request of the batch passes the schema and is run. *)
Example sample_duration_end_to_end :
  map (fun p => Route.status (Route.response (Sample.POST (inr (Page.stringify p)))))
    (Sample.requests Sample.mockServer (JS.Num 200) (JS.Num 2)) = [200; 200]%nat /\
  map (fun p => map Route.durationSeconds
                  (Route.invoked (Sample.POST (inr (Page.stringify p)))))
    (Sample.requests Sample.mockServer (JS.Num 200) (JS.Num 2))
  = [[JS.Num 120]; [JS.Num 120]].
Proof. split; vm_compute; reflexivity. Qed.

(** The hashtags "#dog dog Shorts" leave the dashboard as "dog", "dog",
    "Shorts" and reach the pipeline so, the repetition kept. *)
Example sample_tags_end_to_end :
  map (fun p => map (fun input =>
                       Pipeline.p_tags (Pipeline.publishRequest Route.Unlisted input))
                  (Route.invoked (Sample.POST (inr (Page.stringify p)))))
    (Sample.requests Sample.mockServer (JS.Num 15) (JS.Num 1))
  = [[["dog"; "dog"; "Shorts"]]]%string.
Proof. vm_compute. reflexivity. Qed.

(** A duration that is NaN stays NaN under [Math.min] and [Math.max]; it is
    posted as [null], which the schema coerces to 0 and refuses. *)
Example sample_NaN_duration :
  map Page.p_durationSeconds (Sample.requests Sample.mockServer JS.NaN (JS.Num 1))
    = [JS.NaN] /\
  map (fun p => Route.status (Route.response (Sample.POST (inr (Page.stringify p)))))
    (Sample.requests Sample.mockServer JS.NaN (JS.Num 1)) = [422]%nat.
Proof. split; vm_compute; reflexivity. Qed.

(** ** The claims about the route *)

Section RouteClaims.
Import JS JSFacts Route RouteFacts.

Variable StringToNumber : string -> number.
Variable NumberToString : number -> string.
Variable PipelineResult : Type.
Variable runContentFactory : ContentFactoryRequest -> PipelineResult + string.

Local Abbreviation ToNumber := (ToNumber StringToNumber NumberToString).
Local Abbreviation requestSchema := (requestSchema StringToNumber NumberToString).
Local Abbreviation POST := (POST StringToNumber NumberToString runContentFactory).
Local Abbreviation RemainingFieldsValid :=
  (RemainingFieldsValid StringToNumber NumberToString).
Local Abbreviation numberWithin := (numberWithin StringToNumber NumberToString).
Local Abbreviation duration_schema :=
  (default (z_coerce_number_min_max StringToNumber NumberToString 3 120) (JNum (Num 15))).

(** *** Each schema accepts what its constraint describes *)

Lemma z_string_min_accepts (n : nat) (x : option json) :
  present (textOfAtLeast n) x -> exists s, z_string_min n x = inr s.
Proof.
  destruct x as [v|]; [|contradiction]. intros (s & -> & Hlen).
  exists s. cbn [z_string_min]. now rewrite (proj2 (Nat.leb_le _ _) Hlen).
Qed.

Lemma optional_accepts {A : Type} (P : json -> Prop) (s : schema A) (x : option json) :
  (forall v, P v -> exists a, s (Some v) = inr a) ->
  absentOr P x -> exists a, optional s x = inr a.
Proof.
  intros Hs Hx. destruct x as [v|]; cbn [optional]; [|eauto].
  destruct (Hs v Hx) as [a ->]. eauto.
Qed.

Lemma z_string_accepts (v : json) : isText v -> exists s, z_string (Some v) = inr s.
Proof. intros [s ->]. exists s. reflexivity. Qed.

Lemma z_boolean_accepts (v : json) : isFlag v -> exists b, z_boolean (Some v) = inr b.
Proof. intros [b ->]. exists b. reflexivity. Qed.

Lemma aspectRatio_accepts (x : option json) :
  absentOr (oneOf ["9:16"; "16:9"; "1:1"]%string) x ->
  exists a, default (z_enum aspectRatios) (JStr "9:16") x = inr a.
Proof.
  destruct x as [v|]; cbn [absentOr default]; [|eexists; reflexivity].
  intros (s & -> & [<-|[<-|[<-|[]]]]); eexists; reflexivity.
Qed.

Lemma visibility_accepts (v : json) :
  oneOf ["public"; "private"; "unlisted"]%string v ->
  exists a, z_enum visibilities (Some v) = inr a.
Proof.
  intros (s & -> & [<-|[<-|[<-|[]]]]); eexists; reflexivity.
Qed.

Lemma tags_accepts (v : json) :
  isTagList v -> exists l, z_array (z_string_min 1) (Some v) = inr l.
Proof.
  intros (l & -> & Hl). cbn [z_array].
  induction Hl as [|v l Hv Hl [l' IH]]; cbn [parse_items]; [eexists; reflexivity|].
  destruct (@z_string_min_accepts 1 (Some v) Hv) as [s ->].
  rewrite IH. eexists. reflexivity.
Qed.

Lemma number_within_accepts (n : number) :
  within 3 120 n ->
  (if isNaN n then inl [invalid_type]
   else match (if leb (Num 3) n then [] else [too_small])
                ++ (if leb n (Num 120) then [] else [too_big]) with
        | [] => inr n
        | issues => inl issues
        end) = (inr n : parsed ZodIssueCode number).
Proof.
  intros (q & -> & Hlo & Hhi). cbn [isNaN leb].
  now rewrite (proj2 (Qle_bool_iff 3 q) Hlo), (proj2 (Qle_bool_iff q 120) Hhi).
Qed.

Lemma duration_accepts (x : option json) :
  absentOr (numberWithin 3 120) x -> exists n, duration_schema x = inr n.
Proof.
  destruct x as [v|]; cbn [absentOr default]; [|eexists; reflexivity].
  intro H. eexists. unfold z_coerce_number_min_max.
  apply number_within_accepts. exact H.
Qed.

(** A duration outside [3, 120] is refused, whatever it is coerced from. *)
Lemma duration_refuses (v : json) :
  Outside 3 120 (ToNumber (Some v)) -> exists i, duration_schema (Some v) = inl i.
Proof.
  cbn [default]. unfold z_coerce_number_min_max.
  destruct (ToNumber (Some v)) as [q| | |]; cbn [Outside isNaN leb];
    try (intros _; eexists; reflexivity).
  intros [Hlt|Hlt].
  - rewrite (proj2 (Qle_bool_false 3 q) Hlt). eexists. reflexivity.
  - rewrite (proj2 (Qle_bool_false q 120) Hlt).
    destruct (Qle_bool 3 q); eexists; reflexivity.
Qed.

Lemma coerce_number_inr (x : option json) (n : number) :
  z_coerce_number_min_max StringToNumber NumberToString 3 120 x = inr n ->
  n = ToNumber x /\ within 3 120 n.
Proof.
  unfold z_coerce_number_min_max.
  destruct (ToNumber x) as [q| | |]; cbn [isNaN leb]; try discriminate.
  destruct (Qle_bool 3 q) eqn:Elo; destruct (Qle_bool q 120) eqn:Ehi;
    cbn [app]; try discriminate.
  intro H. injection H as <-. split; [reflexivity|].
  exists q. repeat split; now apply Qle_bool_iff.
Qed.

Lemma POST_refuses (payload : json) :
  (exists issues, requestSchema payload = inl issues) ->
  status (response (POST (inr payload))) = 422%nat /\
  ok (body (response (POST (inr payload)))) = false /\
  invoked (POST (inr payload)) = [].
Proof.
  intros [issues H]. unfold Route.POST. rewrite H. repeat split.
Qed.

Lemma POST_runs (payload : json) (input : ContentFactoryRequest) :
  requestSchema payload = inr input -> invoked (POST (inr payload)) = [input].
Proof.
  intro H. unfold Route.POST. rewrite H.
  destruct (runContentFactory input); reflexivity.
Qed.

(** What the handler runs is what the schema parsed. *)
Lemma invoked_parsed (request : string + json) (input : ContentFactoryRequest) :
  In input (invoked (POST request)) ->
  exists payload, request = inr payload /\ requestSchema payload = inr input.
Proof.
  unfold Route.POST. destruct request as [message|payload]; [intros []|].
  destruct (requestSchema payload) as [issues|input'] eqn:E; [intros []|].
  destruct (runContentFactory input'); intros [<-|[]]; eauto.
Qed.

(** Every request that the handler runs has a duration within [3, 120]. *)
Lemma invoked_duration_within (request : string + json) (input : ContentFactoryRequest) :
  In input (invoked (POST request)) -> within 3 120 (durationSeconds input).
Proof.
  intro H. apply invoked_parsed in H. destruct H as (payload & _ & H).
  destruct payload as [| | | | |o]; try discriminate.
  apply requestSchema_inr in H. destruct H as (_ & _ & Hd & _).
  apply prop_inr in Hd.
  destruct (get "durationSeconds" o); cbn [default] in Hd;
    apply coerce_number_inr in Hd; tauto.
Qed.

(** A prompt shorter than five characters is refused. *)
Lemma short_prompt_refused (o : list (string * json)) (s : string) :
  get "prompt" o = Some (JStr s) -> (String.length s < 5)%nat ->
  status (response (POST (inr (JObj o)))) = 422%nat /\
  invoked (POST (inr (JObj o))) = [].
Proof.
  intros Hget Hlen.
  destruct (@POST_refuses (JObj o)) as (H1 & _ & H3); [|now split].
  apply requestSchema_prompt_fails. apply prop_inl. rewrite Hget.
  cbn [z_string_min]. rewrite (proj2 (Nat.leb_gt _ _) Hlen). eauto.
Qed.

(** C4.  A payload whose [durationSeconds] lies outside [3, 120], or that
    the schema refuses for any other reason, is answered with status 422 and
    [ok: false], and [runContentFactory] is not invoked. *)
Theorem invalid_payload_refused (payload : json) :
  (exists o d,
     payload = JObj o /\ get "durationSeconds" o = Some d /\
     Outside 3 120 (ToNumber (Some d))) \/
  (exists issues, requestSchema payload = inl issues) ->
  status (response (POST (inr payload))) = 422%nat /\
  ok (body (response (POST (inr payload)))) = false /\
  invoked (POST (inr payload)) = [].
Proof.
  intros [(o & d & -> & Hget & Hout)|H]; apply POST_refuses; [|exact H].
  apply requestSchema_duration_fails. apply prop_inl. rewrite Hget.
  apply duration_refuses. exact Hout.
Qed.

(** C5.  The handler answers with status 200, [ok: true] and the whole
    result that [runContentFactory] returned, or with status 400, 422 or 500,
    [ok: false], an error message and no result. *)
Theorem response_is_result_or_error (request : string + json) :
  (status (response (POST request)) = 200%nat /\
   ok (body (response (POST request))) = true /\
   error (body (response (POST request))) = None /\
   details (body (response (POST request))) = None /\
   exists input r,
     invoked (POST request) = [input] /\
     runContentFactory input = inl r /\
     result (body (response (POST request))) = Some r) \/
  ((status (response (POST request)) = 400%nat \/
    status (response (POST request)) = 422%nat \/
    status (response (POST request)) = 500%nat) /\
   ok (body (response (POST request))) = false /\
   (exists message, error (body (response (POST request))) = Some message) /\
   result (body (response (POST request))) = None).
Proof.
  unfold Route.POST. destruct request as [message|payload].
  - right. cbn. repeat split; eauto.
  - destruct (requestSchema payload) as [issues|input].
    + right. cbn. repeat split; eauto.
    + destruct (runContentFactory input) as [r|message] eqn:E.
      * left. cbn. repeat split. exists input, r. repeat split. exact E.
      * right. cbn. repeat split; eauto.
Qed.

(** C6, as amended.  A payload whose prompt is text of at least five
    characters, and whose other properties satisfy their constraints, passes
    the schema and is handed to [runContentFactory] with that prompt. *)
Theorem long_enough_prompt_is_dispatched (o : list (string * json)) (s : string) :
  get "prompt" o = Some (JStr s) ->
  (5 <= String.length s)%nat ->
  RemainingFieldsValid o ->
  exists input,
    requestSchema (JObj o) = inr input /\
    prompt input = s /\
    invoked (POST (inr (JObj o))) = [input].
Proof.
  intros Hget Hlen (Ha & Hd & Hn & Hs & Hau & Ht & Hde & Htg & Hp & Hv & Hu & Hk).
  destruct (@aspectRatio_accepts _ Ha) as [a Ea].
  destruct (@duration_accepts _ Hd) as [d Ed].
  destruct (@optional_accepts _ _ z_string _ z_string_accepts Hn) as [n En].
  destruct (@optional_accepts _ _ z_string _ z_string_accepts Hs) as [sp Es].
  destruct (@optional_accepts _ _ z_string _ z_string_accepts Hau) as [au Eau].
  destruct (@z_string_min_accepts _ _ Ht) as [t Et].
  destruct (@z_string_min_accepts _ _ Hde) as [de Ede].
  destruct (@optional_accepts _ _ (z_array (z_string_min 1)) _ tags_accepts Htg) as [tg Etg].
  destruct (@optional_accepts _ _ z_string _ z_string_accepts Hp) as [pa Ep].
  destruct (@optional_accepts _ _ (z_enum visibilities) _ visibility_accepts Hv) as [v Ev].
  destruct (@optional_accepts _ _ z_boolean _ z_boolean_accepts Hu) as [u Eu].
  destruct (@optional_accepts _ _ z_boolean _ z_boolean_accepts Hk) as [k Ek].
  exists (Build_ContentFactoryRequest s a d n sp au t de tg pa v u k).
  assert (E : requestSchema
                (JObj o) = inr (Build_ContentFactoryRequest s a d n sp au t de tg pa v u k)).
  { apply requestSchema_inr. cbn.
    repeat split; apply prop_inr; try assumption.
    rewrite Hget. cbn [z_string_min]. now rewrite (proj2 (Nat.leb_le _ _) Hlen). }
  split; [exact E|]. split; [reflexivity|]. apply POST_runs. exact E.
Qed.

End RouteClaims.

(** ** The claims about [handleSubmit] *)

Section PageClaims.
Import JS JSFacts Page PageFacts.

Variable DEFAULT_DESCRIPTION : string.
Variable server : nat -> Payload -> Reply.
Variable state : State.
Variable formData : FormData.

Local Abbreviation trace := (fst (handleSubmit DEFAULT_DESCRIPTION server state formData)).
Local Abbreviation payloadOf := (payload DEFAULT_DESCRIPTION state formData).

(** The route's schema reads a clamped duration back as it is: the number
    is posted as a JSON number and [z.coerce.number().min(3).max(120)]
    accepts it. *)
Lemma clamped_duration_passes_schema
  (StringToNumber : string -> number) (NumberToString : number -> string) (d : number) :
  isNaN d = false ->
  Route.z_coerce_number_min_max StringToNumber NumberToString 3 120
    (Some (stringifyNumber (clampTo 3 120 d))) = inr (clampTo 3 120 d).
Proof.
  intro Hd.
  destruct (@clampTo_within 3 120 d) as (q & Hq & Hlo & Hhi);
    [discriminate | exact Hd |].
  rewrite Hq. unfold Route.z_coerce_number_min_max.
  cbn [stringifyNumber Route.ToNumber isNaN leb].
  rewrite (proj2 (Qle_bool_iff 3 q) Hlo), (proj2 (Qle_bool_iff q 120) Hhi).
  reflexivity.
Qed.

(** C1.  Every request that [handleSubmit] dispatches carries the duration
    min(max(durationSeconds, 3), 120) of the state's [durationSeconds]; that
    value lies in [3, 120] (for every duration that is a number, as the
    number input's are) and is what the route's schema then reads; a
    duration of 200 is submitted as 120 and one of -5 as 3.  On the route's
    side, every request handed to the pipeline has a duration in [3, 120]. *)
Theorem duration_clamped_before_dispatch :
  Forall (fun p => p_durationSeconds p = clampTo 3 120 (durationSeconds state))
    (dispatched trace) /\
  (isNaN (durationSeconds state) = false ->
   within 3 120 (clampTo 3 120 (durationSeconds state)) /\
   forall StringToNumber NumberToString,
     Route.z_coerce_number_min_max StringToNumber NumberToString 3 120
       (Some (stringifyNumber (clampTo 3 120 (durationSeconds state)))) =
     inr (clampTo 3 120 (durationSeconds state))) /\
  (durationSeconds state = Num 200 ->
   Forall (fun p => p_durationSeconds p = Num 120) (dispatched trace)) /\
  (durationSeconds state = Num (-5) ->
   Forall (fun p => p_durationSeconds p = Num 3) (dispatched trace)) /\
  (forall StringToNumber NumberToString (PipelineResult : Type)
          (runContentFactory : Route.ContentFactoryRequest -> PipelineResult + string)
          (request : string + Route.json),
     Forall (fun input => within 3 120 (Route.durationSeconds input))
       (Route.invoked
          (Route.POST StringToNumber NumberToString runContentFactory request))).
Proof.
  assert (Hall : Forall (fun p => p_durationSeconds p =
                                  clampTo 3 120 (durationSeconds state))
                   (dispatched trace)).
  { destruct (handleSubmit_dispatched DEFAULT_DESCRIPTION server state formData)
      as (n & _ & ->).
    apply Forall_forall. intros p Hp. apply in_map_iff in Hp.
    destruct Hp as (i & <- & _). cbn [payload p_durationSeconds].
    apply safeDuration_clampTo. }
  split; [exact Hall|]. split; [|split; [|split]].
  - intro Hd. split.
    + apply clampTo_within; [discriminate | exact Hd].
    + intros. now apply clamped_duration_passes_schema.
  - intro H. rewrite H in Hall. exact Hall.
  - intro H. rewrite H in Hall. exact Hall.
  - intros. apply Forall_forall. intros input Hin.
    exact (@invoked_duration_within _ _ _ _ _ _ Hin).
Qed.

(** C8.  The requests of a batch are issued strictly one after the other:
    where the request of run k+1 is dispatched, run k has been dispatched,
    answered and read; and at no point of the trace are two runs in flight. *)
Theorem batch_runs_strictly_sequential :
  Sequential trace /\ OneAtATime trace.
Proof.
  pose proof (handleSubmit_Runs DEFAULT_DESCRIPTION server state formData) as H.
  split.
  - exact (Runs_Sequential H).
  - exact (Runs_OneAtATime H).
Qed.

(** C9, as amended.  One submission dispatches at most ten requests, and at
    least one when it is not ignored as a second submission and the batch
    count is a number; when moreover no request throws, it dispatches
    min(max(batchCount, 1), 10) requests, rounded up when that is not an
    integer: exactly min(max(batchCount, 1), 10) for an integer batch count. *)
Theorem batch_request_count :
  (List.length (dispatched trace) <= 10)%nat /\
  (isSubmitting state = false -> isNaN (batchCount state) = false ->
   (1 <= List.length (dispatched trace))%nat) /\
  (forall q : Q,
     isSubmitting state = false ->
     clampTo 1 10 (batchCount state) = Num q ->
     (forall i p, throws (server i p) = false) ->
     List.length (dispatched trace) = Z.to_nat (Qceiling q)) /\
  (forall z : Z,
     isSubmitting state = false ->
     batchCount state = of_Z z ->
     (forall i p, throws (server i p) = false) ->
     List.length (dispatched trace) = Z.to_nat (Z.min (Z.max z 1) 10)).
Proof.
  assert (Hexact : forall q : Q,
             isSubmitting state = false ->
             clampTo 1 10 (batchCount state) = Num q ->
             (forall i p, throws (server i p) = false) ->
             List.length (dispatched trace) = Z.to_nat (Qceiling q)).
  { intros q Hs Hq Hserver. rewrite handleSubmit_dispatched_loop, Hs.
    assert (Hin : within 1 10 (Num q)).
    { rewrite <- Hq. apply clampTo_within; [discriminate|].
      destruct (batchCount state); [reflexivity..|discriminate]. }
    destruct Hin as (q' & Heq & Hlo & Hhi). injection Heq as <-.
    destruct (@Qceiling_bounds 1 10 q Hlo Hhi) as [Hc1 Hc10].
    rewrite (@forLoop_exact DEFAULT_DESCRIPTION server state formData
               (Qceiling q) 11 0).
    - rewrite length_map, length_seq. lia.
    - intro i. rewrite safeBatchCount_clampTo, Hq. apply ltb_of_nat_ceiling.
    - exact Hserver.
    - lia.
    - lia. }
  split; [|split; [|split]].
  - destruct (handleSubmit_dispatched DEFAULT_DESCRIPTION server state formData)
      as (n & Hn & ->).
    now rewrite length_map, length_seq.
  - intros Hs Hn. rewrite handleSubmit_dispatched_loop, Hs.
    cbn [forLoop]. rewrite (loop_test_first state Hn).
    rewrite fst_bind, dispatched_app, iteration_dispatched.
    cbn [app List.length]. lia.
  - exact Hexact.
  - intros z Hs Hz Hserver.
    rewrite (Hexact (inject_Z (Z.min (Z.max z 1) 10)) Hs); [|rewrite Hz; exact (clampTo_of_Z 1 10 z)|exact Hserver].
    now rewrite Qceiling_Z.
Qed.

(** C10.  The k-th request of a submission (k counted from 1) is titled with
    the trimmed title template, followed by " #" and k when the effective
    batch count exceeds 1, and with nothing after it when that count is 1. *)
Theorem batch_titles (k : nat) (p : Payload) (q : Q) :
  (1 <= k)%nat ->
  nth_error (dispatched trace) (k - 1) = Some p ->
  safeBatchCount state = Num q ->
  (1 < q ->
   title p =
   (trim (nullish (get_title formData) "Dog Park Dash") ++ " #" ++ String_of_nat k)%string) /\
  (q == 1 ->
   title p = trim (nullish (get_title formData) "Dog Park Dash"%string)).
Proof.
  intros Hk Hnth Hq.
  destruct (handleSubmit_dispatched DEFAULT_DESCRIPTION server state formData)
    as (n & _ & Heq).
  rewrite Heq in Hnth. apply nth_error_map_seq in Hnth. subst p.
  cbn [payload title]. rewrite Hq. cbn [ltb]. unfold titleTemplate.
  replace (0 + (k - 1) + 1)%nat with k by lia.
  split; intro H.
  - now rewrite (proj2 (Qltb_true 1 q) H).
  - rewrite (proj2 (Qltb_false 1 q)); [reflexivity|].
    rewrite H. apply Qle_refl.
Qed.

End PageClaims.

(** ** The claims about the pipeline *)

Section PipelineClaims.
Import JS Pipeline.

Variable mockPipeline hasGenerationCredentials hasUploadCredentials : bool.
Variable defaultVisibility : Route.Visibility.
Variable elapsedMs : nat.
Variable generate : GenerationRequest -> GenerationResult + PipelineError.
Variable mockGenerate : GenerationRequest -> GenerationResult.
Variable upload : GenerationResult -> PublishRequest -> (string * Route.Visibility) + string.

Local Abbreviation run :=
  (run mockPipeline hasGenerationCredentials hasUploadCredentials defaultVisibility
     elapsedMs generate mockGenerate upload).
Local Abbreviation publishRequest := (publishRequest defaultVisibility).

(** C3.  When generation succeeds and the upload that follows fails, the
    modelled pipeline returns a result and does not throw: its video is the
    completed one, and its youtube field is the [failed] variant with the
    cause of the failure. *)
Theorem upload_failure_keeps_the_result
  (request : Route.ContentFactoryRequest) (v : GenerationResult) (cause : string) :
  mockMode mockPipeline hasGenerationCredentials = false ->
  hasUploadCredentials = true ->
  Route.uploadToYoutube request = Some true ->
  generate (generationRequest request) = inl v ->
  status v = completed ->
  upload v (publishRequest request) = inr cause ->
  exists r,
    run request = inl r /\
    video r = v /\
    status (video r) = completed /\
    youtube r = Some (failed cause).
Proof.
  intros Hmode Hcred Hreq Hgen Hdone Hup.
  unfold Pipeline.run, uploadLeg. rewrite Hmode, Hgen, Hreq, Hdone, Hcred, Hup.
  eexists. repeat split. exact Hdone.
Qed.

End PipelineClaims.

(** ** The claims at sample inputs *)

Section Witnesses.
Import JS.

(** The properties of the schema that [Sample.basePayload] satisfies, under
    any prompt put in front of it. *)
Lemma sample_remaining_fields_valid (prompt : Route.json) :
  Route.RemainingFieldsValid Sample.decimal Sample.noString
    (("prompt"%string, prompt) :: Sample.basePayload).
Proof.
  unfold Route.RemainingFieldsValid. cbn.
  repeat match goal with
         | |- _ /\ _ => split
         | |- True => exact I
         end.
  - exists "Dog Park Dash"%string. split; [reflexivity | cbn; lia].
  - exists "Watch this adorable pup!"%string. split; [reflexivity | cbn; lia].
  - eexists. split; [reflexivity|].
    repeat constructor; eexists; (split; [reflexivity | cbn; lia]).
  - exists true. reflexivity.
Qed.

(** C1 at a duration of 200, for a batch of two. *)
Lemma duration_clamped_witness :
  Forall (fun p => Page.p_durationSeconds p = Num 120)
    (Sample.requests Sample.mockServer (Num 200) (Num 2)) /\
  List.length (Sample.requests Sample.mockServer (Num 200) (Num 2)) = 2%nat.
Proof.
  split; [|reflexivity].
  exact (proj1 (proj2 (proj2
           (@duration_clamped_before_dispatch ""%string Sample.mockServer
              (Sample.state (Num 200) (Num 2)) Sample.form))) eq_refl).
Defined.

(** C9 as stated fails: a batch of three whose first request is rejected
    sends one request; a batch count of 2.5 sends three; and a submission
    made while another one is running sends none. *)
Lemma batch_count_counterexample :
  (Page.batchCount (Sample.state (Num 15) (of_Z 3)) = of_Z 3 /\
   Z.to_nat (Z.min (Z.max 3 1) 10) = 3%nat /\
   List.length (Sample.requests Sample.unreachable (Num 15) (of_Z 3)) = 1%nat) /\
  (Qmin (Qmax (5 # 2) 1) 10 == 5 # 2 /\
   List.length (Sample.requests Sample.mockServer (Num 15) (Num (5 # 2))) = 3%nat) /\
  List.length
    (Page.dispatched
       (fst (Page.handleSubmit ""%string Sample.mockServer
               {| Page.isSubmitting := true;
                  Page.uploadToYoutube := true;
                  Page.keepLocalFile := false;
                  Page.visibility := "unlisted";
                  Page.aspectRatio := "9:16";
                  Page.durationSeconds := Num 15;
                  Page.batchCount := of_Z 3 |}
               Sample.form))) = 0%nat.
Proof. repeat split. Qed.

(** C9, as amended, at a batch count of 20. *)
Lemma batch_request_count_witness :
  List.length (Sample.requests Sample.mockServer (Num 15) (of_Z 20)) = 10%nat.
Proof.
  exact (proj2 (proj2 (proj2
           (@batch_request_count ""%string Sample.mockServer
              (Sample.state (Num 15) (of_Z 20)) Sample.form)))
           20%Z eq_refl eq_refl (fun _ _ => eq_refl)).
Defined.

(** C10 at the second request of a batch of three. *)
Lemma batch_titles_witness :
  Page.title (Page.payload ""%string (Sample.state (Num 15) (Num 3)) Sample.form 1) =
  "Ultimate Dog Park Dash #2"%string.
Proof.
  refine (proj1 (@batch_titles ""%string Sample.mockServer
                   (Sample.state (Num 15) (Num 3)) Sample.form 2 _ 3 _ _ _) _).
  - lia.
  - reflexivity.
  - reflexivity.
  - reflexivity.
Defined.

(** C4 at a duration of 200. *)
Lemma invalid_payload_refused_witness :
  Route.status (Route.response (Sample.POST (inr (Route.JObj Sample.longDurationPayload))))
    = 422%nat /\
  Route.ok (Route.body
              (Route.response (Sample.POST (inr (Route.JObj Sample.longDurationPayload)))))
    = false /\
  Route.invoked (Sample.POST (inr (Route.JObj Sample.longDurationPayload))) = [].
Proof.
  apply (@invalid_payload_refused Sample.decimal Sample.noString _
           Sample.runContentFactory (Route.JObj Sample.longDurationPayload)).
  left. exists Sample.longDurationPayload, (Route.JNum (Num 200)).
  repeat split. right. reflexivity.
Defined.

(** C6 as stated fails: the prompt "Dogs" is not empty, every other property
    is valid, and the payload is refused without a call of the pipeline. *)
Lemma short_prompt_counterexample :
  Route.get "prompt" Sample.shortPromptPayload = Some (Route.JStr "Dogs") /\
  Route.RemainingFieldsValid Sample.decimal Sample.noString Sample.shortPromptPayload /\
  Route.status (Route.response (Sample.POST (inr (Route.JObj Sample.shortPromptPayload))))
    = 422%nat /\
  Route.invoked (Sample.POST (inr (Route.JObj Sample.shortPromptPayload))) = [].
Proof.
  split; [reflexivity|]. split; [apply sample_remaining_fields_valid|].
  split; reflexivity.
Qed.

(** C6, as amended, at a prompt of nineteen characters. *)
Lemma long_enough_prompt_witness :
  exists input,
    Route.requestSchema Sample.decimal Sample.noString (Route.JObj Sample.minimalPayload)
      = inr input /\
    Route.prompt input = "A puppy in the park"%string /\
    Route.invoked (Sample.POST (inr (Route.JObj Sample.minimalPayload))) = [input].
Proof.
  apply (@long_enough_prompt_is_dispatched Sample.decimal Sample.noString _
           Sample.runContentFactory Sample.minimalPayload "A puppy in the park"%string).
  - reflexivity.
  - cbn. lia.
  - apply sample_remaining_fields_valid.
Defined.

(** C3 at a live run whose upload fails for lack of quota. *)
Lemma upload_failure_witness :
  exists r,
    Sample.liveRun Sample.minimalInput = inl r /\
    Pipeline.video r = Sample.liveVideo /\
    Pipeline.status (Pipeline.video r) = Pipeline.completed /\
    Pipeline.youtube r = Some (Pipeline.failed "quotaExceeded").
Proof.
  apply (@upload_failure_keeps_the_result false true true Route.Unlisted 0%nat
           (fun _ => inl Sample.liveVideo) Sample.mockVideo
           (fun _ _ => inr "quotaExceeded"%string)
           Sample.minimalInput Sample.liveVideo "quotaExceeded"%string);
    reflexivity.
Defined.

End Witnesses.

(* ===================================================================== *)
(** * Part III: further properties of the two files                        *)
(* ===================================================================== *)

(** ** [handleSubmit]: exceptions, the submitting flag and the log *)

Module PageLogFacts.
Import JS JSFacts Page PageFacts PageLogs.

Lemma added_app (t t' : list Event) : added (t ++ t') = added t ++ added t'.
Proof.
  induction t as [|e t IH]; [reflexivity|].
  destruct e; cbn [added app]; rewrite IH; reflexivity.
Qed.

(** Without state events, the log grows by the added entries, newest first,
    and the submitting flag stays. *)
Lemma logsAfter_no_state (t : list Event) (logs : list LogEntry) :
  existsb isState t = false -> logsAfter logs t = rev (added t) ++ logs.
Proof.
  unfold logsAfter. revert logs.
  induction t as [|e t IH]; intros logs Hq; [reflexivity|].
  cbn [existsb] in Hq. apply orb_false_iff in Hq. destruct Hq as [He Hq].
  destruct e; try discriminate; cbn [fold_left applyLog added]; rewrite (IH _ Hq);
    try reflexivity.
  cbn [rev]. now rewrite <- app_assoc.
Qed.

Lemma submittingAfter_no_state (t : list Event) (b : bool) :
  existsb isState t = false -> submittingAfter b t = b.
Proof.
  unfold submittingAfter. revert b.
  induction t as [|e t IH]; intros b Hq; [reflexivity|].
  cbn [existsb] in Hq. apply orb_false_iff in Hq. destruct Hq as [He Hq].
  destruct e; try discriminate; cbn [fold_left applySubmitting]; auto.
Qed.

Section Submission.

Variable DEFAULT_DESCRIPTION : string.
Variable server : nat -> Payload -> Reply.
Variable state : State.
Variable formData : FormData.

Local Abbreviation payload := (payload DEFAULT_DESCRIPTION state formData).
Local Abbreviation iteration := (iteration DEFAULT_DESCRIPTION server state formData).
Local Abbreviation forLoop := (forLoop DEFAULT_DESCRIPTION server state formData).
Local Abbreviation handleSubmit := (handleSubmit DEFAULT_DESCRIPTION server state formData).
Local Abbreviation safeBatchCount := (safeBatchCount state).

Lemma iteration_no_state (index : nat) :
  existsb isState (fst (iteration index)) = false.
Proof.
  unfold Page.iteration, fetch, response_json, addLog, emit, throw, ret.
  destruct (server index (payload index)) as [e|e|s m|e|r];
    cbn [bind app fst snd]; try reflexivity.
  destruct (mock r && uploadToYoutube state &&
            match youtube r with Some (YoutubeSkipped _) => true | _ => false end);
    destruct (youtube r) as [[v i|reason|reason]|]; reflexivity.
Qed.

Lemma forLoop_no_state (fuel index : nat) :
  existsb isState (fst (forLoop fuel index)) = false.
Proof.
  revert index. induction fuel as [|fuel IH]; intro index; cbn [Page.forLoop];
    [reflexivity|].
  destruct (ltb (of_nat index) safeBatchCount); [|reflexivity].
  rewrite fst_bind, existsb_app, iteration_no_state.
  destruct (snd (iteration index)); [apply IH | reflexivity | reflexivity].
Qed.

(** The trace of a submission that is not ignored: the reset, the flag set,
    the loop with the log of a caught exception if there is one, the flag
    cleared. *)
Lemma handleSubmit_bracket :
  isSubmitting state = false ->
  exists middle,
    fst handleSubmit =
      ResetLogs :: SetIsSubmitting true :: middle ++ [SetIsSubmitting false] /\
    existsb isState middle = false /\
    (snd (forLoop 11 0) = Done tt /\ middle = fst (forLoop 11 0) \/
     exists e, snd (forLoop 11 0) = Threw e /\
               middle = fst (forLoop 11 0)
                        ++ [AddLog {| level := error; message := Caught e |}]).
Proof.
  intro Hs. unfold Page.handleSubmit. rewrite Hs.
  rewrite !fst_bind. cbn [emit fst snd app].
  pose proof (forLoop_no_state 11 0) as Hq.
  pose proof (@forLoop_fuel DEFAULT_DESCRIPTION server state formData 11 0
                ltac:(lia) ltac:(lia)) as Hfuel.
  destruct (forLoop 11 0) as [t [[]|e|]]; cbn [fst snd] in *.
  - exists t. cbn. repeat split; auto.
  - exists (t ++ [AddLog {| level := error; message := Caught e |}]).
    cbn. rewrite <- app_assoc. repeat split.
    + rewrite existsb_app, Hq. reflexivity.
    + right. exists e. split; reflexivity.
  - congruence.
Qed.

Lemma handleSubmit_logs (logs : list LogEntry) :
  logsAfter logs (fst handleSubmit) =
  if isSubmitting state then logs else rev (added (fst handleSubmit)).
Proof.
  destruct (isSubmitting state) eqn:Hs.
  - unfold Page.handleSubmit. now rewrite Hs.
  - destruct (handleSubmit_bracket Hs) as (middle & Heq & Hq & _).
    rewrite Heq. unfold logsAfter. cbn [fold_left applyLog added].
    rewrite fold_left_app, added_app. cbn [fold_left applyLog added].
    change (fold_left applyLog middle []) with (logsAfter [] middle).
    now rewrite (@logsAfter_no_state middle [] Hq), !app_nil_r.
Qed.

(** How a round ends, by whether its request throws. *)
Lemma iteration_throws (index : nat) :
  throws (server index (payload index)) = true ->
  exists e, snd (iteration index) = Threw e.
Proof.
  unfold Page.iteration, fetch, response_json, addLog, emit, throw, ret.
  destruct (server index (payload index)) as [e|e|s m|e|r];
    cbn [bind app fst snd throws]; try discriminate; eauto.
Qed.

Lemma iteration_answers (index : nat) :
  throws (server index (payload index)) = false ->
  snd (iteration index) = Done tt.
Proof.
  intro H. destruct (iteration_outcome DEFAULT_DESCRIPTION server state formData index)
    as [Hd|[_ Ht]]; [exact Hd | congruence].
Qed.

(** The round of a mock run with a skipped upload logs the mock-mode note. *)
Lemma iteration_mock_log (index : nat) (r : ResultView) (reason : option string) :
  uploadToYoutube state = true ->
  server index (payload index) = Success r ->
  mock r = true ->
  youtube r = Some (YoutubeSkipped reason) ->
  In {| level := info; message := MockMode |} (added (fst (iteration index))).
Proof.
  intros Hu Hr Hm Hy.
  unfold Page.iteration, fetch, response_json, addLog, emit, throw, ret.
  rewrite Hr. cbn [bind app fst snd]. rewrite Hm, Hu, Hy. cbn. tauto.
Qed.

(** The loop's test is downward closed. *)
Lemma loop_test_mono (i k : nat) :
  (i <= k)%nat ->
  ltb (of_nat k) safeBatchCount = true -> ltb (of_nat i) safeBatchCount = true.
Proof.
  intros Hle. destruct safeBatchCount as [q| | |]; cbn [ltb of_nat]; auto.
  intro H. apply Qltb_true in H. apply Qltb_true.
  apply Qle_lt_trans with (y := inject_Z (Z.of_nat k)); [|exact H].
  rewrite <- Zle_Qle. lia.
Qed.

(** The loop up to the first request that throws. *)
Lemma forLoop_first_throw (k fuel index : nat) :
  (index <= k)%nat -> (k - index < fuel)%nat ->
  (forall i, (index <= i < k)%nat -> throws (server i (payload i)) = false) ->
  throws (server k (payload k)) = true ->
  ltb (of_nat k) safeBatchCount = true ->
  dispatched (fst (forLoop fuel index)) = map payload (seq index (S k - index)) /\
  exists e, snd (forLoop fuel index) = Threw e.
Proof.
  intros Hle Hfuel Hbefore Hk Htest. revert index Hle Hfuel Hbefore.
  induction fuel as [|fuel IH]; intros index Hle Hfuel Hbefore; [lia|].
  cbn [Page.forLoop]. rewrite (loop_test_mono Hle Htest).
  rewrite fst_bind, snd_bind, dispatched_app, iteration_dispatched.
  destruct (Nat.eq_dec index k) as [->|Hne].
  - destruct (iteration_throws k Hk) as [e He]. rewrite He.
    replace (S k - k)%nat with 1%nat by lia. split; [reflexivity | eauto].
  - rewrite (iteration_answers index) by (apply Hbefore; lia).
    destruct (IH (S index)) as [Hd He]; [lia | lia | intros; apply Hbefore; lia |].
    split; [|exact He]. rewrite Hd.
    replace (S k - index)%nat with (S (S k - S index)) by lia. reflexivity.
Qed.

End Submission.

(** *** Strings: pieces without separators, decimal numerals *)

Lemma separator_of_whiteSpace (c : ascii) :
  isSeparator c = false -> isWhiteSpace c = false.
Proof. unfold isSeparator. intro H. now apply orb_false_iff in H. Qed.

Lemma splitFrom_noSeparator (inRun : bool) (s : string) :
  Forall (fun piece => noSeparator piece = true) (splitFrom inRun s).
Proof.
  revert inRun. induction s as [|c s IH]; intro inRun; cbn [splitFrom].
  - repeat constructor.
  - destruct (isSeparator c) eqn:Ec.
    + destruct inRun; [apply IH|]. constructor; [reflexivity | apply IH].
    + specialize (IH false). destruct (splitFrom false s) as [|piece pieces].
      * repeat constructor. cbn [noSeparator]. now rewrite Ec.
      * inversion IH as [|? ? Hp Hps]; subst. constructor; [|exact Hps].
        cbn [noSeparator]. now rewrite Ec, Hp.
Qed.

Lemma trimEnd_noSeparator (s : string) : noSeparator s = true -> trimEnd s = s.
Proof.
  induction s as [|c s IH]; [reflexivity|].
  cbn [noSeparator trimEnd]. intro H. apply andb_true_iff in H. destruct H as [Hc Hs].
  rewrite (IH Hs). apply negb_true_iff in Hc.
  rewrite (separator_of_whiteSpace _ Hc). now destruct s.
Qed.

Lemma trim_noSeparator (s : string) : noSeparator s = true -> trim s = s.
Proof.
  intro H. unfold trim.
  assert (Hstart : trimStart s = s).
  { destruct s as [|c s]; [reflexivity|]. cbn [noSeparator trimStart] in *.
    apply andb_true_iff in H. destruct H as [Hc _]. apply negb_true_iff in Hc.
    now rewrite (separator_of_whiteSpace _ Hc). }
  rewrite Hstart. now apply trimEnd_noSeparator.
Qed.

Lemma stripHash_noSeparator (s : string) :
  noSeparator s = true -> noSeparator (stripHash s) = true.
Proof.
  destruct s as [|c s]; [reflexivity|]. cbn [stripHash noSeparator].
  intro H. apply andb_true_iff in H. destruct H as [Hc Hs].
  destruct (Ascii.eqb c "#"); [exact Hs|]. cbn [noSeparator]. now rewrite Hc, Hs.
Qed.

Lemma append_inj_r (a b c : string) : (a ++ b = a ++ c)%string -> b = c.
Proof.
  induction a as [|x a IH]; cbn [append]; intro H; [exact H|].
  injection H as H. auto.
Qed.

Lemma String_of_nat_inj (n m : nat) : String_of_nat n = String_of_nat m -> n = m.
Proof.
  unfold String_of_nat. intro H.
  apply (f_equal NilEmpty.uint_of_string) in H. rewrite !NilEmpty.usu in H.
  injection H as H. apply (f_equal Nat.of_uint) in H.
  now rewrite !DecimalNat.Unsigned.of_to in H.
Qed.

End PageLogFacts.

Section PageLogProperties.
Import JS JSFacts Page PageFacts PageLogs PageLogFacts.

Variable DEFAULT_DESCRIPTION : string.
Variable server : nat -> Payload -> Reply.
Variable state : State.
Variable formData : FormData.

Local Abbreviation trace := (fst (handleSubmit DEFAULT_DESCRIPTION server state formData)).
Local Abbreviation payloadOf := (payload DEFAULT_DESCRIPTION state formData).

(** X1.  [handleSubmit] returns normally whatever the server does: a
    rejected request, an unreadable body or an unreadable result is caught
    inside it, and the loop ends within its ten rounds. *)
Theorem handleSubmit_never_throws :
  snd (handleSubmit DEFAULT_DESCRIPTION server state formData) = Done tt.
Proof. apply handleSubmit_terminates. Qed.

(** X2.  A submission made while another one runs does nothing.  Any other
    submission resets the log, sets the submitting flag, and clears the flag
    as its last step, whatever the server does; between the two it never
    touches the flag or resets the log again.  So the flag is false when it
    ends. *)
Theorem submitting_flag_is_cleared :
  (isSubmitting state = true -> trace = []) /\
  (isSubmitting state = false ->
   exists middle,
     trace = ResetLogs :: SetIsSubmitting true :: middle ++ [SetIsSubmitting false] /\
     existsb isState middle = false) /\
  (forall b, submittingAfter b trace = if isSubmitting state then b else false).
Proof.
  split; [|split].
  - intro Hs. unfold Page.handleSubmit. now rewrite Hs.
  - intro Hs.
    destruct (@handleSubmit_bracket DEFAULT_DESCRIPTION server state formData Hs)
      as (middle & Heq & Hq & _).
    exists middle. now split.
  - intro b. destruct (isSubmitting state) eqn:Hs.
    + unfold Page.handleSubmit. now rewrite Hs.
    + destruct (@handleSubmit_bracket DEFAULT_DESCRIPTION server state formData Hs)
        as (middle & Heq & Hq & _).
      rewrite Heq. unfold submittingAfter. cbn [fold_left applySubmitting].
      rewrite fold_left_app. cbn [fold_left applySubmitting]. reflexivity.
Qed.

(** X3.  The log after a submission holds the entries of that submission
    alone, newest first: [resetLogs] drops whatever the log held before.  An
    ignored submission leaves the log as it was. *)
Theorem log_holds_this_submission_only (logs : list LogEntry) :
  logsAfter logs trace = if isSubmitting state then logs else rev (added trace).
Proof. apply handleSubmit_logs. Qed.

End PageLogProperties.

(** ** [handleSubmit]: the mock-mode warning, failures and the payloads *)

Section PageBatchProperties.
Import JS JSFacts Page PageFacts PageLogs PageLogFacts.

Variable DEFAULT_DESCRIPTION : string.
Variable server : nat -> Payload -> Reply.
Variable state : State.
Variable formData : FormData.

Local Abbreviation trace := (fst (handleSubmit DEFAULT_DESCRIPTION server state formData)).
Local Abbreviation payloadOf := (payload DEFAULT_DESCRIPTION state formData).
Local Abbreviation forLoop := (forLoop DEFAULT_DESCRIPTION server state formData).

(** X4.  When the first run of a submission comes back as a mock result
    whose upload was skipped, and uploads were asked for, the page shows the
    mock-mode warning once the submission is over, whatever the log held
    before. *)
Theorem mock_run_raises_the_warning
  (ELLIPSIS : string) (NumberToString : number -> string)
  (r : ResultView) (reason : option string) (logs : list LogEntry) :
  isSubmitting state = false ->
  isNaN (batchCount state) = false ->
  uploadToYoutube state = true ->
  server 0 (payloadOf 0) = Success r ->
  mock r = true ->
  youtube r = Some (YoutubeSkipped reason) ->
  hasMockWarning ELLIPSIS NumberToString (logsAfter logs trace) = true.
Proof.
  intros Hs Hn Hu Hr Hm Hy.
  rewrite handleSubmit_logs, Hs. unfold hasMockWarning. apply existsb_exists.
  exists {| level := info; message := MockMode |}. split; [|reflexivity].
  apply in_rev. rewrite rev_involutive.
  destruct (@handleSubmit_bracket DEFAULT_DESCRIPTION server state formData Hs)
    as (middle & Heq & _ & Hmid).
  rewrite Heq. cbn [added]. rewrite added_app. apply in_or_app. left.
  assert (Hloop : In {| level := info; message := MockMode |} (added (fst (forLoop 11 0)))).
  { cbn [Page.forLoop]. rewrite (loop_test_first state Hn).
    rewrite fst_bind, added_app. apply in_or_app. left.
    exact (@iteration_mock_log DEFAULT_DESCRIPTION server state formData 0 r reason
             Hu Hr Hm Hy). }
  destruct Hmid as [[_ ->]|(e & _ & ->)]; [exact Hloop|].
  rewrite added_app. apply in_or_app. now left.
Qed.

(** X5.  The first request that throws ends the batch: when run k is the
    first whose request is rejected or whose answer cannot be read, and the
    loop reaches it, the requests of runs 0 to k are the ones dispatched, and
    the submission ends by logging the caught error and clearing the
    submitting flag. *)
Theorem first_throw_ends_the_batch (k : nat) :
  isSubmitting state = false ->
  (forall i, (i < k)%nat -> throws (server i (payloadOf i)) = false) ->
  throws (server k (payloadOf k)) = true ->
  ltb (of_nat k) (safeBatchCount state) = true ->
  dispatched trace = map payloadOf (seq 0 (S k)) /\
  exists e t,
    trace = t ++ [AddLog {| level := error; message := Caught e |};
                  SetIsSubmitting false].
Proof.
  intros Hs Hbefore Hk Htest.
  pose proof (@loop_test_bound state k Htest) as Hk10.
  destruct (@forLoop_first_throw DEFAULT_DESCRIPTION server state formData k 11 0)
    as [Hd [e He]]; try lia; auto.
  { intros i Hi. apply Hbefore. lia. }
  split.
  - rewrite handleSubmit_dispatched_loop, Hs, Hd. now rewrite Nat.sub_0_r.
  - destruct (@handleSubmit_bracket DEFAULT_DESCRIPTION server state formData Hs)
      as (middle & Heq & _ & [[Hdone _]|(e' & He' & Hmid)]); [congruence|].
    exists e', (ResetLogs :: SetIsSubmitting true :: fst (forLoop 11 0)).
    rewrite Heq, Hmid. cbn [app]. now rewrite <- app_assoc.
Qed.

(** X6.  The tags that [handleSubmit] posts are never empty and hold no
    comma or white space; trimming the pieces of the hashtag field changes
    nothing, since the split already removed the white space; and the list
    always satisfies the route's schema for [tags]. *)
Theorem posted_tags_are_clean :
  Forall (fun tag => truthy tag = true /\ noSeparator tag = true) (tags_ formData) /\
  tags_ formData = filter truthy (map stripHash (split (hashtagsRaw formData))) /\
  Route.z_array (Route.z_string_min 1)
    (Some (Route.JArr (map Route.JStr (tags_ formData)))) = inr (tags_ formData).
Proof.
  assert (Hpieces : Forall (fun piece => noSeparator piece = true)
                      (split (hashtagsRaw formData))).
  { apply splitFrom_noSeparator. }
  assert (Hclean : Forall (fun tag => truthy tag = true /\ noSeparator tag = true)
                     (tags_ formData)).
  { unfold tags_. apply Forall_forall. intros tag Hin.
    apply filter_In in Hin. destruct Hin as [Hin Ht]. split; [exact Ht|].
    apply in_map_iff in Hin. destruct Hin as (piece & <- & Hp).
    rewrite Forall_forall in Hpieces. specialize (Hpieces _ Hp).
    rewrite (trim_noSeparator _ Hpieces). now apply stripHash_noSeparator. }
  split; [exact Hclean|]. split.
  - unfold tags_. f_equal. apply map_ext_in. intros piece Hp.
    rewrite Forall_forall in Hpieces. now rewrite (trim_noSeparator _ (Hpieces _ Hp)).
  - cbn [Route.z_array]. induction Hclean as [|tag l [Ht _] _ IH]; [reflexivity|].
    cbn [map Route.parse_items]. rewrite IH.
    destruct tag; [discriminate | reflexivity].
Qed.

(** X7.  The requests of one submission differ in their title only: prompt,
    aspect ratio, duration, optional prompts, description, tags, visibility,
    schedule and the two flags are those of the first request. *)
Theorem batch_requests_differ_in_title_only :
  Forall (fun p => sameButTitle p (payloadOf 0)) (dispatched trace).
Proof.
  destruct (handleSubmit_dispatched DEFAULT_DESCRIPTION server state formData)
    as (n & _ & ->).
  apply Forall_forall. intros p Hp. apply in_map_iff in Hp.
  destruct Hp as (i & <- & _). repeat split.
Qed.

(** X8.  No two requests of one submission carry the same title. *)
Theorem batch_titles_are_distinct :
  NoDup (map title (dispatched trace)).
Proof.
  rewrite handleSubmit_dispatched_loop. destruct (isSubmitting state); [constructor|].
  destruct (forLoop_dispatched DEFAULT_DESCRIPTION server state formData 11 0)
    as (n & -> & Htest).
  rewrite map_map. cbn [payload title].
  destruct (ltb (Num 1) (safeBatchCount state)) eqn:Emany.
  - apply Finite.Injective_map_NoDup; [|apply seq_NoDup].
    intros i j H. apply append_inj_r in H. apply append_inj_r in H.
    apply String_of_nat_inj in H. lia.
  - destruct n as [|[|n]]; [constructor | repeat constructor; intros [] |].
    specialize (Htest 1%nat ltac:(lia)). cbn [Nat.add] in Htest.
    change (of_nat 1) with (Num 1) in Htest. congruence.
Qed.

End PageBatchProperties.

(** ** [requestSchema] and [POST]: what is read, accepted and reported *)

Module RouteIssueFacts.
Import JS JSFacts Route RouteFacts RouteIssues.

(** Issues add up across the properties of an object. *)
Lemma issuesOf_ap {I A B : Type} (f : parsed I (A -> B)) (x : parsed I A) :
  issuesOf (f <*> x) = issuesOf f ++ issuesOf x.
Proof.
  destruct f as [i|g], x as [ix|a]; cbn [ap issuesOf app]; try reflexivity.
  now rewrite app_nil_r.
Qed.

Lemma issuesOf_prop_path {A : Type} (key : string) (s : schema A)
  (o : list (string * json)) :
  Forall (fun i => path i = key) (issuesOf (prop key s o)).
Proof.
  unfold prop. destruct (s (get key o)) as [codes|a]; cbn [issuesOf]; [|constructor].
  apply Forall_forall. intros i Hi. apply in_map_iff in Hi.
  now destruct Hi as (c & <- & _).
Qed.

(** What each schema accepts, read back from a successful parse. *)
Lemma z_string_min_inr (n : nat) (x : option json) (s : string) :
  z_string_min n x = inr s -> x = Some (JStr s) /\ (n <= String.length s)%nat.
Proof.
  destruct x as [[| | |s'| |]|]; cbn [z_string_min]; try discriminate.
  destruct (Nat.leb_spec n (String.length s')) as [Hle|Hlt]; [|discriminate].
  intro H. injection H as <-. now split.
Qed.

Lemma z_boolean_inr (x : option json) (b : bool) :
  z_boolean x = inr b -> x = Some (JBool b).
Proof.
  destruct x as [[| | | | |]|]; cbn [z_boolean]; try discriminate.
  intro H. now injection H as <-.
Qed.

Lemma z_enum_inr {A : Type} (options : list (string * A)) (x : option json) (a : A) :
  z_enum options x = inr a -> exists s, x = Some (JStr s) /\ In s (map fst options).
Proof.
  destruct x as [[| | |s| |]|]; cbn [z_enum]; try discriminate.
  destruct (find (fun o => String.eqb (fst o) s) options) as [o|] eqn:E; [|discriminate].
  intros _. exists s. split; [reflexivity|].
  apply find_some in E. destruct E as [Hin Heq]. apply String.eqb_eq in Heq.
  subst s. now apply in_map.
Qed.

Lemma parse_items_inr (l : list json) (tags : list string) :
  parse_items (z_string_min 1) l = inr tags ->
  l = map JStr tags /\ Forall (fun t => (1 <= String.length t)%nat) tags.
Proof.
  revert tags. induction l as [|v l IH]; intros tags H; cbn [parse_items] in H.
  - injection H as <-. split; [reflexivity | constructor].
  - apply ap_inr_inv in H. destruct H as (g & rest & H & Hrest & ->).
    apply ap_inr_inv in H. destruct H as (g' & t & H & Ht & ->).
    injection H as <-. apply z_string_min_inr in Ht. destruct Ht as [Hv Hlen].
    injection Hv as ->. destruct (IH _ Hrest) as [-> Hall].
    split; [reflexivity | now constructor].
Qed.

Lemma optional_inr {A : Type} (s : schema A) (x : option json) (a : option A) :
  optional s x = inr a ->
  match x with
  | None => a = None
  | Some _ => exists a', a = Some a' /\ s x = inr a'
  end.
Proof.
  destruct x as [v|]; cbn [optional].
  - destruct (s (Some v)) as [i|a']; [discriminate|].
    intro H. injection H as <-. eauto.
  - intro H. now injection H as <-.
Qed.

(** *** Failing properties and their issues *)

Lemma failed_ap {I A B : Type} (f : parsed I (A -> B)) (x : parsed I A) :
  failed (f <*> x) = failed f || failed x.
Proof. destruct f, x; reflexivity. Qed.

Lemma strict_string_min (n : nat) : strict (z_string_min n).
Proof.
  intros [[| | |s| |]|] codes; cbn [z_string_min]; try (intros [= <-]; discriminate).
  destruct (n <=? String.length s)%nat; intros [= <-]; discriminate.
Qed.

Lemma strict_boolean : strict z_boolean.
Proof.
  intros [[| | | | |]|] codes; cbn [z_boolean]; intros [= <-]; discriminate.
Qed.

Lemma strict_enum {A : Type} (options : list (string * A)) : strict (z_enum options).
Proof.
  intros [[| | |s| |]|] codes; cbn [z_enum]; try (intros [= <-]; discriminate).
  destruct (find (fun o => String.eqb (fst o) s) options); intros [= <-]; discriminate.
Qed.

Lemma strict_coerce_number (StringToNumber : string -> number)
  (NumberToString : number -> string) (lo hi : Q) :
  strict (z_coerce_number_min_max StringToNumber NumberToString lo hi).
Proof.
  intros x codes. unfold z_coerce_number_min_max.
  destruct (isNaN _); [intros [= <-]; discriminate|].
  destruct (leb (Num lo) _), (leb _ (Num hi)); cbn [app];
    intros [= <-]; discriminate.
Qed.

Lemma strict_optional {A : Type} (s : schema A) : strict s -> strict (optional s).
Proof.
  intros Hs [v|] codes; cbn [optional]; [|discriminate].
  destruct (s (Some v)) as [i|a] eqn:E; intros [= <-]. exact (Hs _ _ E).
Qed.

Lemma strict_default {A : Type} (s : schema A) (d : json) : strict s -> strict (default s d).
Proof. intros Hs [v|] codes; cbn [default]; apply Hs. Qed.

Lemma strict_array {A : Type} (item : schema A) : strict item -> strict (z_array item).
Proof.
  intros Hs [[| | | |l|]|] codes; cbn [z_array]; try (intros [= <-]; discriminate).
  revert codes. induction l as [|v l IH]; intro codes; cbn [parse_items]; [discriminate|].
  unfold pure. cbn [ap].
  destruct (item (Some v)) as [i|a] eqn:Ei, (parse_items item l) as [il|al] eqn:El;
    cbn [ap]; intros [= <-].
  - intro H. apply app_eq_nil in H. destruct H as [H _]. exact (Hs _ _ Ei H).
  - exact (Hs _ _ Ei).
  - exact (IH il eq_refl).
Qed.

Lemma report_sound {A : Type} (key : string) (s : schema A) (o : list (string * json)) :
  strict s -> sound (report key s o).
Proof.
  intro Hs. split; [|apply issuesOf_prop_path].
  unfold report, prop. cbn [fst snd].
  destruct (s (get key o)) as [codes|a] eqn:E; cbn [failed issuesOf].
  - split; [|reflexivity]. intros _ H. apply map_eq_nil in H. exact (Hs _ _ E H).
  - split; [discriminate | intro H; now elim H].
Qed.

Lemma failing_iff_issue (rs : list (string * bool * list ZodIssue)) (key : string) :
  Forall sound rs ->
  In key (map (fun r => fst (fst r)) (filter (fun r => snd (fst r)) rs)) <->
  exists i, In i (List.concat (map snd rs)) /\ path i = key.
Proof.
  induction 1 as [|[[k b] issues] rs [Hb Hpath] _ IH]; cbn [filter map List.concat].
  - split; [intros [] | intros (i & [] & _)].
  - cbn [fst snd] in *. split.
    + destruct b; cbn [map In fst].
      * intros [<-|Hin].
        -- destruct issues as [|i issues]; [now elim (proj1 Hb eq_refl)|].
           exists i. split; [now left|]. now inversion Hpath.
        -- apply IH in Hin. destruct Hin as (i & Hi & Hp).
           exists i. split; [apply in_or_app; now right | exact Hp].
      * intro Hin. apply IH in Hin. destruct Hin as (i & Hi & Hp).
        exists i. split; [apply in_or_app; now right | exact Hp].
    + intros (i & Hi & Hp). apply in_app_or in Hi. destruct Hi as [Hi|Hi].
      * assert (Hne : issues <> []) by (intros ->; destruct Hi).
        rewrite (proj2 Hb Hne). cbn [map In fst]. left.
        rewrite Forall_forall in Hpath. now rewrite <- (Hpath _ Hi).
      * assert (Hrest : In key (map (fun r => fst (fst r))
                                  (filter (fun r => snd (fst r)) rs))).
        { apply IH. now exists i. }
        destruct b; cbn [map In fst]; auto.
Qed.

End RouteIssueFacts.

Section RouteProperties.
Import JS JSFacts Route RouteFacts RouteIssues RouteIssueFacts.

Variable StringToNumber : string -> number.
Variable NumberToString : number -> string.
Variable PipelineResult : Type.
Variable runContentFactory : ContentFactoryRequest -> PipelineResult + string.

Local Abbreviation ToNumber := (ToNumber StringToNumber NumberToString).
Local Abbreviation requestSchema := (requestSchema StringToNumber NumberToString).
Local Abbreviation POST := (POST StringToNumber NumberToString runContentFactory).
Local Abbreviation RemainingFieldsValid :=
  (RemainingFieldsValid StringToNumber NumberToString).
Local Abbreviation numberWithin := (numberWithin StringToNumber NumberToString).
Local Abbreviation duration_schema :=
  (default (z_coerce_number_min_max StringToNumber NumberToString 3 120) (JNum (Num 15))).

(** *** Helpers: acceptance in both directions *)

Lemma optional_string_valid (x : option json) (a : option string) :
  optional z_string x = inr a -> absentOr isText x.
Proof.
  intro H. apply optional_inr in H. destruct x as [v|]; [|exact I].
  destruct H as (s & _ & H). apply z_string_min_inr in H.
  destruct H as [H _]. injection H as ->. now exists s.
Qed.

Lemma optional_boolean_valid (x : option json) (a : option bool) :
  optional z_boolean x = inr a -> absentOr isFlag x.
Proof.
  intro H. apply optional_inr in H. destruct x as [v|]; [|exact I].
  destruct H as (b & _ & H). apply z_boolean_inr in H.
  injection H as ->. now exists b.
Qed.

Lemma string_min_valid (n : nat) (x : option json) (s : string) :
  z_string_min n x = inr s -> present (textOfAtLeast n) x.
Proof.
  intro H. apply z_string_min_inr in H. destruct H as [-> Hlen]. now exists s.
Qed.

Lemma tags_valid (x : option json) (a : option (list string)) :
  optional (z_array (z_string_min 1)) x = inr a -> absentOr isTagList x.
Proof.
  intro H. apply optional_inr in H. destruct x as [v|]; [|exact I].
  destruct H as (tags & _ & H).
  destruct v as [| | | |l|]; cbn [z_array] in H; try discriminate.
  apply parse_items_inr in H. destruct H as [-> Hall].
  exists (map JStr tags). split; [reflexivity|].
  apply Forall_map. eapply Forall_impl; [|exact Hall].
  intros t Ht. now exists t.
Qed.

Lemma schema_valid (o : list (string * json)) (input : ContentFactoryRequest) :
  requestSchema (JObj o) = inr input ->
  present (textOfAtLeast 5) (get "prompt" o) /\ RemainingFieldsValid o.
Proof.
  intro H. apply requestSchema_inr in H.
  destruct H as (H1 & H2 & H3 & H4 & H5 & H6 & H7 & H8 & H9 & H10 & H11 & H12 & H13).
  apply prop_inr in H1, H2, H3, H4, H5, H6, H7, H8, H9, H10, H11, H12, H13.
  split; [exact (string_min_valid _ _ H1)|].
  unfold Route.RemainingFieldsValid. repeat split.
  - destruct (get "aspectRatio" o) as [v|]; [|exact I]. cbn [default] in H2.
    apply z_enum_inr in H2. destruct H2 as (s & Hs & Hin).
    injection Hs as ->. now exists s.
  - destruct (get "durationSeconds" o) as [v|]; [|exact I]. cbn [default] in H3.
    apply coerce_number_inr in H3. destruct H3 as [-> Hin]. exact Hin.
  - exact (optional_string_valid _ H4).
  - exact (optional_string_valid _ H5).
  - exact (optional_string_valid _ H6).
  - exact (string_min_valid _ _ H7).
  - exact (string_min_valid _ _ H8).
  - exact (tags_valid _ H9).
  - exact (optional_string_valid _ H10).
  - apply optional_inr in H11. destruct (get "visibility" o) as [v|]; [|exact I].
    destruct H11 as (a & _ & H11). apply z_enum_inr in H11.
    destruct H11 as (s & Hs & Hin). injection Hs as ->. now exists s.
  - exact (optional_boolean_valid _ H12).
  - exact (optional_boolean_valid _ H13).
Qed.

Lemma schema_accepts (o : list (string * json)) :
  present (textOfAtLeast 5) (get "prompt" o) -> RemainingFieldsValid o ->
  exists input, requestSchema (JObj o) = inr input.
Proof.
  intros Hp (Ha & Hd & Hn & Hs & Hau & Ht & Hde & Htg & Hpa & Hv & Hu & Hk).
  destruct (@z_string_min_accepts _ _ Hp) as [p Ep].
  destruct (@aspectRatio_accepts _ Ha) as [a Ea].
  destruct (@duration_accepts StringToNumber NumberToString _ Hd) as [d Ed].
  destruct (@optional_accepts _ _ z_string _ z_string_accepts Hn) as [n En].
  destruct (@optional_accepts _ _ z_string _ z_string_accepts Hs) as [sp Es].
  destruct (@optional_accepts _ _ z_string _ z_string_accepts Hau) as [au Eau].
  destruct (@z_string_min_accepts _ _ Ht) as [t Et].
  destruct (@z_string_min_accepts _ _ Hde) as [de Ede].
  destruct (@optional_accepts _ _ (z_array (z_string_min 1)) _ tags_accepts Htg) as [tg Etg].
  destruct (@optional_accepts _ _ z_string _ z_string_accepts Hpa) as [pa Epa].
  destruct (@optional_accepts _ _ (z_enum visibilities) _ visibility_accepts Hv) as [v Ev].
  destruct (@optional_accepts _ _ z_boolean _ z_boolean_accepts Hu) as [u Eu].
  destruct (@optional_accepts _ _ z_boolean _ z_boolean_accepts Hk) as [k Ek].
  exists (Build_ContentFactoryRequest p a d n sp au t de tg pa v u k).
  apply requestSchema_inr. cbn. repeat split; apply prop_inr; assumption.
Qed.

(** X9.  The schema accepts a payload exactly when it is an object whose
    prompt is text of at least five characters and whose other properties
    satisfy their constraints; nothing but an object is accepted. *)
Theorem schema_accepts_exactly (payload : json) :
  (exists input, requestSchema payload = inr input) <->
  exists o,
    payload = JObj o /\
    present (textOfAtLeast 5) (get "prompt" o) /\
    RemainingFieldsValid o.
Proof.
  split.
  - intros [input H]. destruct payload as [| | | | |o]; try discriminate.
    exists o. split; [reflexivity|]. exact (@schema_valid o input H).
  - intros (o & -> & Hp & Hr). now apply schema_accepts.
Qed.

(** X10.  Every request that [POST] hands to [runContentFactory] has a prompt
    of at least five characters, a title of at least three, a description of
    at least ten, a duration in [3, 120] and no empty tag; and [POST] runs
    the pipeline at most once. *)
Theorem pipeline_input_is_valid (request : string + json) :
  Forall
    (fun input =>
       (5 <= String.length (prompt input))%nat /\
       (3 <= String.length (title input))%nat /\
       (10 <= String.length (description input))%nat /\
       within 3 120 (durationSeconds input) /\
       Forall (fun t => (1 <= String.length t)%nat) (nullish (tags input) []))
    (invoked (POST request)) /\
  (List.length (invoked (POST request)) <= 1)%nat.
Proof.
  split.
  - apply Forall_forall. intros input Hin.
    pose proof (@invoked_duration_within _ _ _ _ _ _ Hin) as Hduration.
    apply invoked_parsed in Hin. destruct Hin as (payload & _ & H).
    destruct payload as [| | | | |o]; try discriminate.
    apply requestSchema_inr in H.
    destruct H as (H1 & _ & _ & _ & _ & _ & H7 & H8 & H9 & _).
    apply prop_inr in H1, H7, H8, H9.
    apply z_string_min_inr in H1, H7, H8.
    repeat split; try tauto.
    apply optional_inr in H9. destruct (get "tags" o) as [v|].
    + destruct H9 as (l & -> & H9). cbn [nullish].
      destruct v as [| | | |l0|]; cbn [z_array] in H9; try discriminate.
      apply parse_items_inr in H9. tauto.
    + rewrite H9. constructor.
  - unfold Route.POST. destruct request as [m|payload]; [cbn; lia|].
    destruct (requestSchema payload); [cbn; lia|].
    destruct (runContentFactory c); cbn; lia.
Qed.

(** X11.  The schema reads the thirteen properties it names and nothing
    else: two objects that agree on them are parsed alike and answered
    alike, so an extra property changes nothing. *)
Theorem schema_reads_named_properties_only (o o' : list (string * json)) :
  (forall key, In key schemaKeys -> get key o = get key o') ->
  requestSchema (JObj o) = requestSchema (JObj o') /\
  POST (inr (JObj o)) = POST (inr (JObj o')).
Proof.
  intro H.
  assert (E : requestSchema (JObj o) = requestSchema (JObj o')).
  { unfold Route.requestSchema, prop.
    rewrite (H "prompt"%string), (H "aspectRatio"%string), (H "durationSeconds"%string),
      (H "negativePrompt"%string), (H "stylePreset"%string), (H "audioPrompt"%string),
      (H "title"%string), (H "description"%string), (H "tags"%string),
      (H "publishAt"%string), (H "visibility"%string), (H "uploadToYoutube"%string),
      (H "keepLocalFile"%string) by (cbn; tauto).
    reflexivity. }
  split; [exact E|]. unfold Route.POST. now rewrite E.
Qed.

Lemma reports_sound (o : list (string * json)) :
  Forall sound (reports StringToNumber NumberToString o).
Proof.
  unfold reports, z_string.
  repeat (constructor;
          [apply report_sound;
           repeat first [ apply strict_optional | apply strict_default
                        | apply strict_array | apply strict_string_min
                        | apply strict_boolean | apply strict_enum
                        | apply strict_coerce_number ] |]).
  constructor.
Qed.

Lemma issues_of_reports (o : list (string * json)) :
  issuesOf (requestSchema (JObj o)) =
  List.concat (map snd (reports StringToNumber NumberToString o)).
Proof.
  unfold Route.requestSchema. rewrite !issuesOf_ap.
  cbn [issuesOf pure app reports report map snd List.concat].
  now rewrite app_nil_r, <- !app_assoc.
Qed.

Lemma failed_of_reports (o : list (string * json)) :
  failed (requestSchema (JObj o)) =
  existsb (fun r => snd (fst r)) (reports StringToNumber NumberToString o).
Proof.
  unfold Route.requestSchema. rewrite !failed_ap.
  cbn [failed pure reports report existsb fst snd orb].
  now rewrite orb_false_r, !orb_assoc.
Qed.

(** X12.  A refusal reports every failing property: the answer with status
    422 carries as [details] the issues of the object, which are the issues
    of its thirteen properties in the order of the schema, each under the
    name of its property; a property fails exactly if an issue is reported
    under its name, and a payload is refused exactly if a property fails. *)
Theorem all_failures_are_reported (o : list (string * json)) :
  issuesOf (requestSchema (JObj o)) =
    issuesOf (prop "prompt" (z_string_min 5) o)
    ++ issuesOf (prop "aspectRatio" (default (z_enum aspectRatios) (JStr "9:16")) o)
    ++ issuesOf (prop "durationSeconds" duration_schema o)
    ++ issuesOf (prop "negativePrompt" (optional z_string) o)
    ++ issuesOf (prop "stylePreset" (optional z_string) o)
    ++ issuesOf (prop "audioPrompt" (optional z_string) o)
    ++ issuesOf (prop "title" (z_string_min 3) o)
    ++ issuesOf (prop "description" (z_string_min 10) o)
    ++ issuesOf (prop "tags" (optional (z_array (z_string_min 1))) o)
    ++ issuesOf (prop "publishAt" (optional z_string) o)
    ++ issuesOf (prop "visibility" (optional (z_enum visibilities)) o)
    ++ issuesOf (prop "uploadToYoutube" (optional z_boolean) o)
    ++ issuesOf (prop "keepLocalFile" (optional z_boolean) o) /\
  Forall (fun i => In (path i) schemaKeys) (issuesOf (requestSchema (JObj o))) /\
  (forall issues,
     requestSchema (JObj o) = inl issues ->
     response (POST (inr (JObj o))) =
       {| status := 422;
          body := {| ok := false;
                     error := Some "Validation failed."%string;
                     details := Some (Flattened issues);
                     result := None |} |} /\
     invoked (POST (inr (JObj o))) = [] /\
     forall key,
       In key (failingProperties StringToNumber NumberToString o) <->
       exists i, In i issues /\ path i = key) /\
  ((exists issues, requestSchema (JObj o) = inl issues) <->
   exists key, In key (failingProperties StringToNumber NumberToString o)).
Proof.
  assert (E : issuesOf (requestSchema (JObj o)) =
    issuesOf (prop "prompt" (z_string_min 5) o)
    ++ issuesOf (prop "aspectRatio" (default (z_enum aspectRatios) (JStr "9:16")) o)
    ++ issuesOf (prop "durationSeconds" duration_schema o)
    ++ issuesOf (prop "negativePrompt" (optional z_string) o)
    ++ issuesOf (prop "stylePreset" (optional z_string) o)
    ++ issuesOf (prop "audioPrompt" (optional z_string) o)
    ++ issuesOf (prop "title" (z_string_min 3) o)
    ++ issuesOf (prop "description" (z_string_min 10) o)
    ++ issuesOf (prop "tags" (optional (z_array (z_string_min 1))) o)
    ++ issuesOf (prop "publishAt" (optional z_string) o)
    ++ issuesOf (prop "visibility" (optional (z_enum visibilities)) o)
    ++ issuesOf (prop "uploadToYoutube" (optional z_boolean) o)
    ++ issuesOf (prop "keepLocalFile" (optional z_boolean) o)).
  { unfold Route.requestSchema. rewrite !issuesOf_ap. cbn [issuesOf pure app].
    now rewrite <- !app_assoc. }
  split; [exact E|]. split; [|split].
  - rewrite E.
    repeat (apply Forall_app; split);
      (eapply Forall_impl; [|apply issuesOf_prop_path]);
      intros i ->; cbn; tauto.
  - intros issues H. split; [|split].
    + unfold Route.POST. now rewrite H.
    + unfold Route.POST. now rewrite H.
    + intro key. unfold failingProperties.
      rewrite (failing_iff_issue key (reports_sound o)), <- issues_of_reports, H.
      reflexivity.
  - split.
    + intros [issues H].
      assert (Hf : failed (requestSchema (JObj o)) = true) by now rewrite H.
      rewrite failed_of_reports in Hf. apply existsb_exists in Hf.
      destruct Hf as (r & Hin & Hr). exists (fst (fst r)).
      unfold failingProperties.
      apply (in_map (fun r0 : string * bool * list ZodIssue => fst (fst r0))).
      apply filter_In. now split.
    + intros [key Hkey]. unfold failingProperties in Hkey.
      apply in_map_iff in Hkey. destruct Hkey as (r & _ & Hr).
      apply filter_In in Hr.
      assert (Hf : failed (requestSchema (JObj o)) = true).
      { rewrite failed_of_reports. apply existsb_exists. now exists r. }
      destruct (requestSchema (JObj o)) as [issues|input]; [eauto | discriminate].
Qed.

(** X13.  The default of 15 is for an absent [durationSeconds] only: a value
    that is present is coerced with [Number] and checked, so [null], [true]
    and [false] (0, 1 and 0) are refused with status 422. *)
Theorem present_duration_is_never_defaulted (o : list (string * json)) (d : json) :
  get "durationSeconds" o = Some d ->
  (forall input, requestSchema (JObj o) = inr input ->
                 durationSeconds input = ToNumber (Some d)) /\
  (d = JNull \/ (exists b, d = JBool b) ->
   status (response (POST (inr (JObj o)))) = 422%nat /\
   invoked (POST (inr (JObj o))) = []).
Proof.
  intro Hget. split.
  - intros input H. apply requestSchema_inr in H. destruct H as (_ & _ & Hd & _).
    apply prop_inr in Hd. rewrite Hget in Hd. cbn [default] in Hd.
    apply coerce_number_inr in Hd. tauto.
  - intro Hd.
    destruct (@POST_refuses StringToNumber NumberToString _ runContentFactory (JObj o))
      as (H1 & _ & H3); [|now split].
    apply requestSchema_duration_fails. apply prop_inl. rewrite Hget.
    apply duration_refuses.
    destruct Hd as [->|[[|] ->]]; cbn; left; reflexivity.
Qed.

End RouteProperties.

(** ** From [handleSubmit] to [requestSchema]: the posted payload read back *)

Module RoundTripFacts.
Import JS JSFacts Route RouteFacts Page PageFacts.

Lemma length_append (a b : string) :
  String.length (a ++ b) = (String.length a + String.length b)%nat.
Proof. induction a as [|c a IH]; cbn [append String.length]; [reflexivity | now rewrite IH]. Qed.

Lemma nonempty_tags_pass (l : list string) :
  Forall (fun t => truthy t = true) l ->
  z_array (z_string_min 1) (Some (JArr (map JStr l))) = inr l.
Proof.
  cbn [z_array]. induction 1 as [|t l Ht _ IH]; [reflexivity|].
  cbn [map parse_items]. rewrite IH. destruct t; [discriminate | reflexivity].
Qed.

Lemma tags_truthy (formData : FormData) :
  Forall (fun t => truthy t = true) (tags_ formData).
Proof.
  unfold tags_. apply Forall_forall. intros t Hin. apply filter_In in Hin. tauto.
Qed.

Section Parse.

Variable StringToNumber : string -> number.
Variable NumberToString : number -> string.

Local Abbreviation requestSchema := (requestSchema StringToNumber NumberToString).

Lemma stringify_parses (p : Payload) :
  (5 <= String.length (Page.prompt p))%nat ->
  (3 <= String.length (Page.title p))%nat ->
  (10 <= String.length (Page.description p))%nat ->
  In (p_aspectRatio p) ["9:16"; "16:9"; "1:1"]%string ->
  In (p_visibility p) ["public"; "private"; "unlisted"]%string ->
  within 3 120 (p_durationSeconds p) ->
  Forall (fun t => truthy t = true) (Page.tags p) ->
  exists a v, requestSchema (stringify p) = inr (PageLogs.parsedPayload p a v).
Proof.
  intros Hp Ht Hd Ha Hv Hn Htags.
  destruct (@aspectRatio_accepts (Some (JStr (p_aspectRatio p)))) as [a Ea].
  { exists (p_aspectRatio p). now split. }
  destruct (@visibility_accepts (JStr (p_visibility p))) as [v Ev].
  { exists (p_visibility p). now split. }
  exists a, v. unfold stringify. apply requestSchema_inr.
  destruct Hn as (q & Hq & Hlo & Hhi).
  unfold PageLogs.parsedPayload.
  cbn [Route.prompt Route.aspectRatio Route.durationSeconds Route.negativePrompt
       Route.stylePreset Route.audioPrompt Route.title Route.description Route.tags
       Route.publishAt Route.visibility Route.uploadToYoutube Route.keepLocalFile].
  rewrite Hq.
  destruct (Page.negativePrompt p), (Page.stylePreset p), (Page.publishAt p);
    repeat split; apply prop_inr;
    match goal with
    | |- context [get ?k ?l] =>
        let r := eval cbn in (get k l) in change (get k l) with r
    end;
    try reflexivity;
    try exact Ea;
    try (cbn [optional]; rewrite Ev; reflexivity);
    try (cbn [optional]; rewrite (nonempty_tags_pass Htags); reflexivity);
    try (cbn [z_string_min]; rewrite (proj2 (Nat.leb_le _ _) Hp); reflexivity);
    try (cbn [z_string_min]; rewrite (proj2 (Nat.leb_le _ _) Ht); reflexivity);
    try (cbn [z_string_min]; rewrite (proj2 (Nat.leb_le _ _) Hd); reflexivity);
    try (cbn [default]; unfold z_coerce_number_min_max; cbn [Route.ToNumber];
         apply number_within_accepts; exists q; now repeat split).
Qed.

End Parse.

End RoundTripFacts.

Section RoundTrip.
Import JS JSFacts Route RouteFacts Page PageFacts PageLogs RoundTripFacts.

Variable DEFAULT_DESCRIPTION : string.
Variable server : nat -> Payload -> Reply.
Variable state : State.
Variable formData : FormData.
Variable StringToNumber : string -> number.
Variable NumberToString : number -> string.

Local Abbreviation trace := (fst (handleSubmit DEFAULT_DESCRIPTION server state formData)).
Local Abbreviation requestSchema := (Route.requestSchema StringToNumber NumberToString).

(** X14.  When the form holds a prompt of at least five characters, a title
    of at least three once trimmed and a description of at least ten, the
    state's aspect ratio and visibility are among the schema's, and the
    duration is a number, every request that [handleSubmit] posts passes the
    route's schema, and the route reads back what was posted: the same
    prompt, title, description, clamped duration, tags, optional prompts,
    schedule and flags, and no audio prompt. *)
Theorem dashboard_requests_pass_the_schema :
  (5 <= String.length (prompt_ formData))%nat ->
  (3 <= String.length (trim (titleTemplate formData)))%nat ->
  (10 <= String.length (description_ DEFAULT_DESCRIPTION formData))%nat ->
  In (Page.aspectRatio state) ["9:16"; "16:9"; "1:1"]%string ->
  In (Page.visibility state) ["public"; "private"; "unlisted"]%string ->
  isNaN (Page.durationSeconds state) = false ->
  Forall
    (fun p => exists a v, requestSchema (stringify p) = inr (parsedPayload p a v))
    (dispatched trace).
Proof.
  intros Hp Ht Hd Ha Hv Hn.
  destruct (handleSubmit_dispatched DEFAULT_DESCRIPTION server state formData)
    as (n & _ & ->).
  apply Forall_forall. intros p Hin. apply in_map_iff in Hin.
  destruct Hin as (i & <- & _).
  apply stringify_parses; cbn [payload Page.prompt Page.title Page.description
    p_aspectRatio p_visibility p_durationSeconds Page.tags]; auto.
  - destruct (ltb (Num 1) (safeBatchCount state)); [|exact Ht].
    rewrite length_append. lia.
  - rewrite safeDuration_clampTo. apply clampTo_within; [discriminate | exact Hn].
  - apply tags_truthy.
Qed.

End RoundTrip.

Section Defaults.
Import JS JSFacts Route RouteFacts.

Variable StringToNumber : string -> number.
Variable NumberToString : number -> string.
Variable PipelineResult : Type.
Variable runContentFactory : ContentFactoryRequest -> PipelineResult + string.

Local Abbreviation requestSchema := (requestSchema StringToNumber NumberToString).
Local Abbreviation POST := (POST StringToNumber NumberToString runContentFactory).

(** X15.  Leaving a defaulted property out is the same as sending its
    default: a payload without [aspectRatio] is parsed and answered as the
    payload with [aspectRatio: "9:16"] put in front, and one without
    [durationSeconds] as the payload with [durationSeconds: 15]. *)
Theorem default_is_the_same_as_explicit (o : list (string * json)) :
  (get "aspectRatio" o = None ->
   requestSchema (JObj (("aspectRatio"%string, JStr "9:16") :: o)) = requestSchema (JObj o) /\
   POST (inr (JObj (("aspectRatio"%string, JStr "9:16") :: o))) = POST (inr (JObj o))) /\
  (get "durationSeconds" o = None ->
   requestSchema (JObj (("durationSeconds"%string, JNum (Num 15)) :: o))
     = requestSchema (JObj o) /\
   POST (inr (JObj (("durationSeconds"%string, JNum (Num 15)) :: o))) = POST (inr (JObj o))).
Proof.
  split; intro H.
  - assert (E : requestSchema (JObj (("aspectRatio"%string, JStr "9:16") :: o))
                = requestSchema (JObj o)).
    { unfold Route.requestSchema, prop.
      repeat match goal with
             | |- context [get ?k (?x :: o)] =>
                 let r := eval cbn in (get k (x :: o)) in change (get k (x :: o)) with r
             end.
      rewrite H. reflexivity. }
    split; [exact E|]. unfold Route.POST. now rewrite E.
  - assert (E : requestSchema (JObj (("durationSeconds"%string, JNum (Num 15)) :: o))
                = requestSchema (JObj o)).
    { unfold Route.requestSchema, prop.
      repeat match goal with
             | |- context [get ?k (?x :: o)] =>
                 let r := eval cbn in (get k (x :: o)) in change (get k (x :: o)) with r
             end.
      rewrite H. reflexivity. }
    split; [exact E|]. unfold Route.POST. now rewrite E.
Qed.

End Defaults.

(** ** The further properties at sample inputs *)

Section FurtherWitnesses.
Import JS.

(** Two refusals at once: a prompt of four characters and a duration of 200
    are both reported. *)
Example sample_two_issues :
  Route.details (Route.body (Route.response
    (Sample.POST (inr (Route.JObj
       (("durationSeconds"%string, Route.JNum (Num 200)) :: Sample.shortPromptPayload))))))
  = Some (Route.Flattened
            [{| Route.path := "prompt"; Route.code := Route.too_small |};
             {| Route.path := "durationSeconds"; Route.code := Route.too_big |}]).
Proof. vm_compute. reflexivity. Qed.

(** X4 at a single mock run. *)
Lemma mock_run_raises_the_warning_witness :
  PageLogs.hasMockWarning "..." Sample.noString
    (PageLogs.logsAfter [] (Sample.submit Sample.mockServer (Num 15) (Num 1))) = true.
Proof.
  apply (@mock_run_raises_the_warning ""%string Sample.mockServer
           (Sample.state (Num 15) (Num 1)) Sample.form "..."%string Sample.noString
           {| Page.jobId := "mock-job"; Page.mock := true;
              Page.youtube := Some (Page.YoutubeSkipped (Some "mock mode"%string)) |}
           (Some "mock mode"%string) []);
    reflexivity.
Defined.

(** X5 at a batch of three that cannot reach the server. *)
Lemma first_throw_ends_the_batch_witness :
  Sample.requests Sample.unreachable (Num 15) (Num 3) =
    map (Page.payload ""%string (Sample.state (Num 15) (Num 3)) Sample.form) (seq 0 1) /\
  exists e t,
    Sample.submit Sample.unreachable (Num 15) (Num 3) =
    t ++ [Page.AddLog {| Page.level := Page.error; Page.message := Page.Caught e |};
          Page.SetIsSubmitting false].
Proof.
  apply (@first_throw_ends_the_batch ""%string Sample.unreachable
           (Sample.state (Num 15) (Num 3)) Sample.form 0).
  - reflexivity.
  - intros i Hi. lia.
  - reflexivity.
  - reflexivity.
Defined.

(** X11 at a payload with a property the schema does not name. *)
Lemma schema_reads_named_properties_only_witness :
  Sample.POST (inr (Route.JObj (("debug"%string, Route.JBool true) :: Sample.minimalPayload)))
  = Sample.POST (inr (Route.JObj Sample.minimalPayload)).
Proof.
  refine (proj2 (@schema_reads_named_properties_only Sample.decimal Sample.noString _
                   Sample.runContentFactory
                   (("debug"%string, Route.JBool true) :: Sample.minimalPayload)
                   Sample.minimalPayload _)).
  intros key Hin. cbn in Hin.
  repeat (destruct Hin as [<-|Hin]; [reflexivity|]). destruct Hin.
Defined.

(** X13 at a duration of [null]. *)
Lemma present_duration_is_never_defaulted_witness :
  Route.status (Route.response
    (Sample.POST (inr (Route.JObj
       (("durationSeconds"%string, Route.JNull) :: Sample.minimalPayload))))) = 422%nat /\
  Route.invoked
    (Sample.POST (inr (Route.JObj
       (("durationSeconds"%string, Route.JNull) :: Sample.minimalPayload)))) = [].
Proof.
  apply (proj2 (@present_duration_is_never_defaulted Sample.decimal Sample.noString _
                  Sample.runContentFactory
                  (("durationSeconds"%string, Route.JNull) :: Sample.minimalPayload)
                  Route.JNull eq_refl)).
  left. reflexivity.
Defined.

(** X14 at the sample form, with a duration of 200 and a batch of two. *)
Lemma dashboard_requests_pass_the_schema_witness :
  Forall
    (fun p => exists a v,
       Route.requestSchema Sample.decimal Sample.noString (Page.stringify p)
       = inr (PageLogs.parsedPayload p a v))
    (Sample.requests Sample.mockServer (Num 200) (Num 2)).
Proof.
  apply (@dashboard_requests_pass_the_schema ""%string Sample.mockServer
           (Sample.state (Num 200) (Num 2)) Sample.form Sample.decimal Sample.noString).
  - apply Nat.leb_le. reflexivity.
  - apply Nat.leb_le. reflexivity.
  - apply Nat.leb_le. reflexivity.
  - cbn. tauto.
  - cbn. tauto.
  - reflexivity.
Defined.

(** X15 at the sample payload, which names neither property. *)
Lemma default_is_the_same_as_explicit_witness :
  Sample.POST (inr (Route.JObj
     (("aspectRatio"%string, Route.JStr "9:16") :: Sample.minimalPayload)))
    = Sample.POST (inr (Route.JObj Sample.minimalPayload)) /\
  Sample.POST (inr (Route.JObj
     (("durationSeconds"%string, Route.JNum (Num 15)) :: Sample.minimalPayload)))
    = Sample.POST (inr (Route.JObj Sample.minimalPayload)).
Proof.
  destruct (@default_is_the_same_as_explicit Sample.decimal Sample.noString _
              Sample.runContentFactory Sample.minimalPayload) as [Ha Hd].
  split; [exact (proj2 (Ha eq_refl)) | exact (proj2 (Hd eq_refl))].
Defined.

End FurtherWitnesses.

(** ** Defaults and coercion, and the tags on their way to the pipeline *)

Module LateFacts.
Import JS JSFacts Route RouteFacts RouteIssueFacts.

Lemma map_JStr_inj (l l' : list string) : map JStr l = map JStr l' -> l = l'.
Proof.
  revert l'. induction l as [|t l IH]; intros [|t' l'] H; try discriminate;
    [reflexivity|].
  cbn [map] in H. injection H as -> H. f_equal. now apply IH.
Qed.

Section Parsed.

Variable StringToNumber : string -> number.
Variable NumberToString : number -> string.

Local Abbreviation requestSchema := (requestSchema StringToNumber NumberToString).
Local Abbreviation RemainingFieldsValid :=
  (RemainingFieldsValid StringToNumber NumberToString).

(** What a parsed request holds for the two defaulted properties. *)
Lemma parsed_defaults (o : list (string * json)) (input : ContentFactoryRequest) :
  requestSchema (JObj o) = inr input ->
  (get "aspectRatio" o = None -> aspectRatio input = Ratio_9_16) /\
  (get "durationSeconds" o = None -> durationSeconds input = Num 15) /\
  (forall s, get "durationSeconds" o = Some (JStr s) ->
             durationSeconds input = StringToNumber s /\ within 3 120 (StringToNumber s)).
Proof.
  intro H. apply (requestSchema_inr StringToNumber NumberToString) in H.
  destruct H as (_ & Ha & Hd & _).
  apply prop_inr in Ha. apply prop_inr in Hd.
  split; [|split].
  - intro Hget. rewrite Hget in Ha. cbn in Ha. now injection Ha as <-.
  - intro Hget. rewrite Hget in Hd. cbn in Hd. now injection Hd as <-.
  - intros s Hget. rewrite Hget in Hd. cbn [default] in Hd.
    apply (coerce_number_inr StringToNumber NumberToString) in Hd. destruct Hd as [Heq Hin].
    cbn in Heq. rewrite <- Heq. split; [reflexivity | exact Hin].
Qed.

(** A string duration in front of an object leaves its other properties as
    they are, and is valid when it converts to a number of [3, 120]. *)
Lemma string_duration_valid (o : list (string * json)) (s : string) (q : Q) :
  RemainingFieldsValid o ->
  StringToNumber s = Num q -> 3 <= q -> q <= 120 ->
  RemainingFieldsValid (("durationSeconds"%string, JStr s) :: o).
Proof.
  intros (Ha & _ & Hn & Hs & Hau & Ht & Hde & Htg & Hp & Hv & Hu & Hk) Hq Hlo Hhi.
  unfold Route.RemainingFieldsValid.
  repeat match goal with
         | |- context [get ?k (?x :: o)] =>
             let r := eval cbn in (get k (x :: o)) in change (get k (x :: o)) with r
         end.
  repeat split; try assumption.
  cbn [absentOr]. unfold numberWithin. cbn [Route.ToNumber]. rewrite Hq.
  exists q. now repeat split.
Qed.

(** The tags of a payload reach the parsed request unchanged. *)
Lemma parsed_tags (o : list (string * json)) (l : list string)
  (input : ContentFactoryRequest) :
  requestSchema (JObj o) = inr input ->
  get "tags" o = Some (JArr (map JStr l)) ->
  tags input = Some l.
Proof.
  intros H Hget. apply (requestSchema_inr StringToNumber NumberToString) in H.
  destruct H as (_ & _ & _ & _ & _ & _ & _ & _ & Ht & _).
  apply prop_inr in Ht. rewrite Hget in Ht. apply optional_inr in Ht.
  destruct Ht as (l' & -> & Ht). cbn [z_array] in Ht.
  apply parse_items_inr in Ht. destruct Ht as [Hmap _].
  now rewrite (map_JStr_inj _ _ Hmap).
Qed.

End Parsed.

End LateFacts.

Section CoercionClaim.
Import JS JSFacts Route RouteFacts LateFacts.

Variable StringToNumber : string -> number.
Variable NumberToString : number -> string.
Variable PipelineResult : Type.
Variable runContentFactory : ContentFactoryRequest -> PipelineResult + string.

Local Abbreviation requestSchema := (requestSchema StringToNumber NumberToString).
Local Abbreviation POST := (POST StringToNumber NumberToString runContentFactory).
Local Abbreviation RemainingFieldsValid :=
  (RemainingFieldsValid StringToNumber NumberToString).

(** C7.  A payload that passes the schema is handed to [runContentFactory]
    with aspect ratio 9:16 when it leaves out [aspectRatio], with a duration
    of 15 when it leaves out [durationSeconds], and with the number that its
    [durationSeconds] string converts to when that property is a string.
    And such payloads do pass: a payload without [durationSeconds] whose
    prompt and other properties are valid is accepted and run with the
    defaults, and the same payload with a [durationSeconds] string that
    [Number] converts to a number of [3, 120] is accepted and run with that
    number as its duration. *)
Theorem defaults_and_coercion (o : list (string * json)) :
  (forall input,
     requestSchema (JObj o) = inr input ->
     invoked (POST (inr (JObj o))) = [input] /\
     (get "aspectRatio" o = None -> aspectRatio input = Ratio_9_16) /\
     (get "durationSeconds" o = None -> durationSeconds input = Num 15) /\
     (forall s, get "durationSeconds" o = Some (JStr s) ->
                durationSeconds input = StringToNumber s /\
                within 3 120 (StringToNumber s))) /\
  (get "durationSeconds" o = None ->
   present (textOfAtLeast 5) (get "prompt" o) ->
   RemainingFieldsValid o ->
   (exists input,
      requestSchema (JObj o) = inr input /\
      invoked (POST (inr (JObj o))) = [input] /\
      durationSeconds input = Num 15 /\
      (get "aspectRatio" o = None -> aspectRatio input = Ratio_9_16)) /\
   (forall s q,
      StringToNumber s = Num q -> 3 <= q -> q <= 120 ->
      exists input,
        requestSchema (JObj (("durationSeconds"%string, JStr s) :: o)) = inr input /\
        invoked (POST (inr (JObj (("durationSeconds"%string, JStr s) :: o)))) = [input] /\
        durationSeconds input = Num q)).
Proof.
  split.
  - intros input H. split; [now apply (@POST_runs StringToNumber NumberToString _ runContentFactory)|]. exact (@parsed_defaults StringToNumber NumberToString o input H).
  - intros Habsent Hprompt Hvalid. split.
    + destruct (@schema_accepts StringToNumber NumberToString o Hprompt Hvalid)
        as [input H].
      exists input. split; [exact H|]. split; [now apply (@POST_runs StringToNumber NumberToString _ runContentFactory)|].
      destruct (@parsed_defaults StringToNumber NumberToString _ _ H) as (Ha & Hd & _). split; auto.
    + intros s q Hq Hlo Hhi.
      destruct (@schema_accepts StringToNumber NumberToString
                  (("durationSeconds"%string, JStr s) :: o)) as [input H].
      * exact Hprompt.
      * now apply (@string_duration_valid StringToNumber NumberToString o s q).
      * exists input. split; [exact H|]. split; [now apply (@POST_runs StringToNumber NumberToString _ runContentFactory)|].
        destruct (@parsed_defaults StringToNumber NumberToString _ _ H) as (_ & _ & Hs).
        destruct (Hs s eq_refl) as [Heq _]. now rewrite Heq.
Qed.

End CoercionClaim.

Section TagsClaim.
Import JS JSFacts Route RouteFacts Page PageFacts PageLogs PageLogFacts LateFacts.

Variable DEFAULT_DESCRIPTION : string.
Variable server : nat -> Payload -> Reply.
Variable state : State.
Variable formData : FormData.

Local Abbreviation trace := (fst (handleSubmit DEFAULT_DESCRIPTION server state formData)).

(** C2, as amended.  The tags that [handleSubmit] posts are the non-empty
    pieces of the hashtag field, each with one leading '#' stripped, in the
    order of the field and with repetitions kept; the route hands the tags of
    a payload to the pipeline as they are.  The field "#dog dog Shorts" gives
    the list dog, dog, Shorts: its tags are "dog" and "Shorts", and no '#' is
    left in them. *)
Theorem posted_tags_are_stripped_with_repetition :
  Forall (fun p => Page.tags p = tags_ formData) (dispatched trace) /\
  tags_ formData = filter truthy (map stripHash (split (hashtagsRaw formData))) /\
  (forall (StringToNumber : string -> number) (NumberToString : number -> string)
          (o : list (string * json)) (l : list string) (input : ContentFactoryRequest),
     requestSchema StringToNumber NumberToString (JObj o) = inr input ->
     get "tags" o = Some (JArr (map JStr l)) ->
     Route.tags input = Some l) /\
  (get_hashtags formData = Some "#dog dog Shorts"%string ->
   tags_ formData = ["dog"; "dog"; "Shorts"]%string /\
   (forall t, In t (tags_ formData) <-> t = "dog"%string \/ t = "Shorts"%string) /\
   Forall (fun t => forallb (fun c => negb (Ascii.eqb c "#")) (list_ascii_of_string t) = true)
     (tags_ formData)).
Proof.
  split; [|split; [|split]].
  - destruct (handleSubmit_dispatched DEFAULT_DESCRIPTION server state formData)
      as (n & _ & ->).
    apply Forall_forall. intros p Hp. apply in_map_iff in Hp.
    now destruct Hp as (i & <- & _).
  - unfold tags_. f_equal. apply map_ext_in. intros piece Hp.
    pose proof (splitFrom_noSeparator false (hashtagsRaw formData)) as Hpieces.
    rewrite Forall_forall in Hpieces. now rewrite (trim_noSeparator _ (Hpieces _ Hp)).
  - intros S2N N2S o l input H Hget. exact (@parsed_tags S2N N2S o l input H Hget).
  - intro Hget. unfold tags_, hashtagsRaw. rewrite Hget.
    split; [reflexivity|]. split.
    + intro t. cbn. split.
      * intros [<-|[<-|[<-|[]]]]; [left | left | right]; reflexivity.
      * intros [->| ->]; [left | right; right; left]; reflexivity.
    + cbn. repeat constructor.
Qed.

End TagsClaim.

(** ** The revised claims at sample inputs *)

Section LateWitnesses.
Import JS.

(** C2 as stated fails: the hashtags "#dog dog Shorts" are posted as dog,
    dog, Shorts, a list that repeats "dog"; and the tags "#dog", "dog",
    "Shorts" of a payload reach the pipeline as they are, '#' included. *)
Lemma tags_counterexample :
  map Page.tags (Sample.requests Sample.mockServer (Num 15) (Num 1))
    = [["dog"; "dog"; "Shorts"]]%string /\
  ~ NoDup ["dog"; "dog"; "Shorts"]%string /\
  map Route.tags (Route.invoked (Sample.POST (inr (Route.JObj Sample.minimalPayload))))
    = [Some ["#dog"; "dog"; "Shorts"]%string].
Proof.
  split; [reflexivity|]. split; [|reflexivity].
  intro H. inversion H as [|? ? Hnotin _]. apply Hnotin. now left.
Qed.

(** C2, as amended, at the sample form, whose hashtags are "#dog dog Shorts". *)
Lemma posted_tags_witness :
  Page.tags_ Sample.form = ["dog"; "dog"; "Shorts"]%string /\
  (forall t, In t (Page.tags_ Sample.form) <-> t = "dog"%string \/ t = "Shorts"%string) /\
  Forall (fun t => forallb (fun c => negb (Ascii.eqb c "#")) (list_ascii_of_string t) = true)
    (Page.tags_ Sample.form).
Proof.
  exact (proj2 (proj2 (proj2
           (@posted_tags_are_stripped_with_repetition ""%string Sample.mockServer
              (Sample.state (Num 15) (Num 1)) Sample.form))) eq_refl).
Defined.

(** C7 at a payload without [aspectRatio] and [durationSeconds], which is
    run with 9:16 and 15, and at the same payload with the duration "30",
    which is run with the number 30. *)
Lemma defaults_and_coercion_witness :
  (exists input,
     Route.invoked (Sample.POST (inr (Route.JObj Sample.minimalPayload))) = [input] /\
     Route.durationSeconds input = Num 15 /\
     Route.aspectRatio input = Route.Ratio_9_16) /\
  (exists input,
     Route.invoked (Sample.POST (inr (Route.JObj Sample.stringDurationPayload))) = [input] /\
     Route.durationSeconds input = Num 30).
Proof.
  destruct (proj2 (@defaults_and_coercion Sample.decimal Sample.noString _
                     Sample.runContentFactory Sample.minimalPayload))
    as [(input & _ & Hrun & Hd & Ha) Hstring].
  - reflexivity.
  - exists "A puppy in the park"%string. split; [reflexivity | cbn; lia].
  - apply sample_remaining_fields_valid.
  - split.
    + exists input. split; [exact Hrun|]. split; [exact Hd | exact (Ha eq_refl)].
    + destruct (Hstring "30"%string 30 eq_refl) as (input' & _ & Hrun' & Hd').
      * apply Qle_bool_iff. reflexivity.
      * apply Qle_bool_iff. reflexivity.
      * exists input'. split; [exact Hrun' | exact Hd'].
Defined.

(** X12 at a payload with a prompt of four characters and a duration of 200. *)
Lemma all_failures_are_reported_witness :
  Route.response
    (Sample.POST (inr (Route.JObj
       (("durationSeconds"%string, Route.JNum (Num 200)) :: Sample.shortPromptPayload))))
  = {| Route.status := 422;
       Route.body :=
         {| Route.ok := false;
            Route.error := Some "Validation failed."%string;
            Route.details :=
              Some (Route.Flattened
                      [{| Route.path := "prompt"; Route.code := Route.too_small |};
                       {| Route.path := "durationSeconds"; Route.code := Route.too_big |}]);
            Route.result := None |} |} /\
  (forall key,
     In key (RouteIssues.failingProperties Sample.decimal Sample.noString
               (("durationSeconds"%string, Route.JNum (Num 200)) :: Sample.shortPromptPayload))
     <-> key = "prompt"%string \/ key = "durationSeconds"%string).
Proof.
  destruct (proj1 (proj2 (proj2
              (@all_failures_are_reported Sample.decimal Sample.noString _
                 Sample.runContentFactory
                 (("durationSeconds"%string, Route.JNum (Num 200))
                    :: Sample.shortPromptPayload))))
              _ eq_refl) as (Hresponse & _ & _).
  split; [exact Hresponse|].
  intro key.
  change (In key ["prompt"; "durationSeconds"]%string
          <-> key = "prompt"%string \/ key = "durationSeconds"%string).
  split.
  - intros [<-|[<-|[]]]; [left | right]; reflexivity.
  - intros [->| ->]; [left | right; left]; reflexivity.
Defined.

End LateWitnesses.
